(** * Resume screener: extraction and scoring engine

    A shallow embedding of
      - [resume_screener_service/utils/resume_parser.py]
        ([load_common_skills], [KNOWN_SKILLS], [parse_resume_info]),
      - [resume_screener_service/utils/scoring_logic.py]
        ([_extract_jd_requirements], [score_resume]),
      - the extraction guard of [resume_screener_service/app.py],
    followed by the properties of the extraction-and-scoring core.

    Modelling conventions.
      - A Python [str] is a list of Unicode code points.
      - The parts of Python that depend on the Unicode character database
        ([str.lower], the decimal value behind [\d] and [int], the
        alphanumeric test behind [\b]) are a parameter, [unicode_db].
      - The three external capabilities (spaCy's entity recogniser, the
        sentence encoder and its cosine similarity) are parameters.
      - Python floats are idealised as exact rationals ([Q]); [round(x, 2)]
        is rounding to the nearest hundredth, ties to even. *)

From Stdlib Require Import String Ascii DecimalString.
From Stdlib Require Import List Sorted Permutation Bool Arith ZArith NArith.
From Stdlib Require Import QArith Qround.
From Stdlib Require Import Lia Lqa.
Import ListNotations.

Set Implicit Arguments.
Close Scope Q_scope.

(* ------------------------------------------------------------------ *)
(** * Text: Python strings as lists of code points *)

Definition cp := N.
Definition text := list cp.

Definition text_eq_dec : forall a b : text, {a = b} + {a <> b} :=
  list_eq_dec N.eq_dec.

(** An ASCII literal of this development read as a Python string. *)
Definition str (s : string) : text :=
  map N_of_ascii (list_ascii_of_string s).

Arguments str s%_string.

Definition NL : cp := 10%N.        (* "\n" *)
Definition BULLET : cp := 8226%N.  (* U+2022 *)

Definition chr (a : ascii) : cp := N_of_ascii a.
Arguments chr a%_char.

(** [sep.join(parts)] *)
Fixpoint join (sep : text) (parts : list text) : text :=
  match parts with
  | [] => []
  | [p] => p
  | p :: rest => p ++ sep ++ join sep rest
  end.

(** A text given line by line: the lines joined with "\n". *)
Definition lines_text (ls : list string) : text := join [NL] (map str ls).

Definition in_range (lo hi c : cp) : bool := ((lo <=? c) && (c <=? hi))%N.
Arguments in_range (lo hi c)%_N.

(** [str.isspace] on one character, which is also [\s] of [re] on [str]
    patterns: the characters of bidirectional type WS, B or S, or of category
    Zs. *)
Definition isspace (c : cp) : bool :=
  in_range 9 13 c || in_range 28 32 c || (c =? 133)%N || (c =? 160)%N
  || (c =? 5760)%N || in_range 8192 8202 c || (c =? 8232)%N || (c =? 8233)%N
  || (c =? 8239)%N || (c =? 8287)%N || (c =? 12288)%N.

Fixpoint lstrip (s : text) : text :=
  match s with
  | [] => []
  | x :: s' => if isspace x then lstrip s' else s
  end.

Definition rstrip (s : text) : text := rev (lstrip (rev s)).

(** [s.strip()] *)
Definition strip (s : text) : text := rstrip (lstrip s).

(** Python truthiness of a string or of a list. *)
Definition nonempty {X : Type} (s : list X) : bool :=
  match s with [] => false | _ => true end.

(** Splitting at every character satisfying [p], empty pieces kept:
    [s.split(c)] for a one-character [c], and [re.split] for a character
    class. *)
Fixpoint split_by (p : cp -> bool) (s : text) : list text :=
  match s with
  | [] => [[]]
  | x :: s' =>
      if p x then [] :: split_by p s'
      else match split_by p s' with
           | h :: t => (x :: h) :: t
           | [] => [[x]]
           end
  end.

(** [s.split()]: the maximal runs of non-whitespace characters. *)
Definition split_ws (s : text) : list text :=
  filter (@nonempty cp) (split_by isspace s).

(** [s.replace(c, '')] for a one-character [c]. *)
Definition remove_char (c : cp) (s : text) : text :=
  filter (fun x => negb (x =? c)%N) s.

Fixpoint starts_with (x s : text) : bool :=
  match x, s with
  | [], _ => true
  | _ :: _, [] => false
  | a :: x', b :: s' => (a =? b)%N && starts_with x' s'
  end.

(** [x in s] on strings. *)
Fixpoint is_substring (x s : text) : bool :=
  starts_with x s ||
  match s with
  | [] => false
  | _ :: s' => is_substring x s'
  end.

(** [c in s] for a one-character [c]. *)
Definition has_char (c : cp) (s : text) : bool :=
  existsb (fun x => (x =? c)%N) s.

(** [str(n)] and the [{n}] of an f-string, for an integer. *)
Definition str_of_Z (n : Z) : text :=
  str (NilEmpty.string_of_int (Z.to_int n)).

(* ------------------------------------------------------------------ *)
(** * The Unicode character database *)

Record unicode_db := {
  (** [str.lower] *)
  str_lower : text -> text;
  (** the decimal digit value of a character, for the characters [\d]
      matches and [int] accepts *)
  decimal : cp -> option N;
  (** [str.isalnum] on one character; with "_" the word characters of [\b] *)
  isalnum : cp -> bool
}.

Definition is_upper_ascii (c : cp) : bool := in_range 65 90 c.
Definition is_lower_ascii (c : cp) : bool := in_range 97 122 c.
Definition is_digit_ascii (c : cp) : bool := in_range 48 57 c.
Definition is_letter_ascii (c : cp) : bool :=
  is_upper_ascii c || is_lower_ascii c.

Definition lower_ascii_char (c : cp) : cp :=
  if is_upper_ascii c then (c + 32)%N else c.

(** The database restricted to ASCII: every other character is uncased, not
    a digit and not alphanumeric.  It agrees with Python on ASCII text and
    is the instance the examples are evaluated with. *)
Definition ascii_db : unicode_db := {|
  str_lower := map lower_ascii_char;
  decimal := fun c => if is_digit_ascii c then Some (c - 48)%N else None;
  isalnum := fun c => is_letter_ascii c || is_digit_ascii c
|}.

Section Unicode.
Variable U : unicode_db.

Definition lower : text -> text := str_lower U.

Definition isdigit (c : cp) : bool :=
  match decimal U c with Some _ => true | None => false end.

(** [\w] *)
Definition isword (c : cp) : bool := isalnum U c || (c =? 95)%N.

(** [int(s)] for a text [s] of decimal digits, as the groups [(\d+)] are
    (lemma [years_group_is_digits]); a character without a decimal value
    would count as 0. *)
Definition int_of_digits (s : text) : Z :=
  fold_left
    (fun acc c =>
       (10 * acc + match decimal U c with Some d => Z.of_N d | None => 0 end)%Z)
    s 0%Z.

End Unicode.

(* ------------------------------------------------------------------ *)
(** * Regular expressions: the fragment of Python's [re] the code uses

    A backtracking matcher in continuation-passing style, with the priorities
    of [re]: alternatives left to right, a greedy repetition longest first, a
    lazy one shortest first.  Every repetition in the patterns of this
    program is over a single character class, which is what [Star] offers. *)

Inductive regex : Type :=
| Eps
| Cls (p : cp -> bool)              (* one character satisfying [p] *)
| Seq (r1 r2 : regex)
| Alt (r1 r2 : regex)               (* r1|r2 *)
| Star (greedy : bool) (p : cp -> bool)   (* [p]* and [p]*? *)
| Grp (n : nat) (r : regex)         (* capturing group number [n] *)
| EndZ                              (* \Z *)
| EndDollar                         (* $ without MULTILINE *)
| WordB (w : cp -> bool).           (* \b, [w] the word characters *)

(** Captured groups, most recent binding first. *)
Definition caps := list (nat * text).

Fixpoint cap_lookup (n : nat) (c : caps) : option text :=
  match c with
  | [] => None
  | (m, t) :: c' => if Nat.eqb n m then Some t else cap_lookup n c'
  end.

Section Matcher.
Variable A : Type.

(** A continuation receives the text before the position (reversed), the
    text after it, and the groups captured so far. *)
Definition cont := text -> text -> caps -> option A.

Fixpoint star_cls (greedy : bool) (p : cp -> bool)
    (pre s : text) (c : caps) (k : cont) : option A :=
  match s with
  | x :: s' =>
      if p x then
        if greedy then
          match star_cls greedy p (x :: pre) s' c k with
          | Some a => Some a
          | None => k pre s c
          end
        else
          match k pre s c with
          | Some a => Some a
          | None => star_cls greedy p (x :: pre) s' c k
          end
      else k pre s c
  | [] => k pre s c
  end.

Definition at_word_boundary (w : cp -> bool) (pre s : text) : bool :=
  let before := match pre with x :: _ => w x | [] => false end in
  let after := match s with x :: _ => w x | [] => false end in
  xorb before after.

Fixpoint mt (r : regex) (pre s : text) (c : caps) (k : cont) : option A :=
  match r with
  | Eps => k pre s c
  | Cls p =>
      match s with
      | x :: s' => if p x then k (x :: pre) s' c else None
      | [] => None
      end
  | Seq r1 r2 => mt r1 pre s c (fun pre' s' c' => mt r2 pre' s' c' k)
  | Alt r1 r2 =>
      match mt r1 pre s c k with
      | Some a => Some a
      | None => mt r2 pre s c k
      end
  | Star g p => star_cls g p pre s c k
  | Grp n r1 =>
      mt r1 pre s c
         (fun pre' s' c' =>
            k pre' s' ((n, firstn (length s - length s') s) :: c'))
  | EndZ => match s with [] => k pre s c | _ :: _ => None end
  | EndDollar =>
      match s with
      | [] => k pre s c
      | [x] => if (x =? NL)%N then k pre s c else None
      | _ => None
      end
  | WordB w => if at_word_boundary w pre s then k pre s c else None
  end.

End Matcher.

(** A match object: [group(0)] and the numbered groups. *)
Record rmatch := { m_text : text; m_caps : caps }.

(** [m.group(n)], [None] for a group that did not take part. *)
Definition group (m : rmatch) (n : nat) : option text := cap_lookup n (m_caps m).

(** A group as [re.findall] reports it: empty when it did not take part. *)
Definition group_or_empty (m : rmatch) (n : nat) : text :=
  match group m n with Some t => t | None => [] end.

Definition match_here (r : regex) (pre s : text) : option rmatch :=
  mt r pre s []
     (fun _ s' c' =>
        Some {| m_text := firstn (length s - length s') s; m_caps := c' |}).

Fixpoint search_from (r : regex) (pre s : text) : option rmatch :=
  match match_here r pre s with
  | Some m => Some m
  | None =>
      match s with
      | [] => None
      | x :: s' => search_from r (x :: pre) s'
      end
  end.

(** [re.search(r, s)]: the match at the leftmost position that has one.  It
    is also the first element of [re.findall(r, s)] when that list is not
    empty. *)
Definition re_search (r : regex) (s : text) : option rmatch :=
  search_from r [] s.

(** ** Pattern syntax *)

Definition seqs (rs : list regex) : regex := fold_right Seq Eps rs.
Definition opt (r : regex) : regex := Alt r Eps.            (* r? *)
Definition plus (p : cp -> bool) : regex := Seq (Cls p) (Star true p).  (* [p]+ *)
Fixpoint times (n : nat) (p : cp -> bool) : regex :=        (* [p]{n} *)
  match n with O => Eps | S n' => Seq (Cls p) (times n' p) end.
Fixpoint upto (n : nat) (p : cp -> bool) : regex :=         (* [p]{0,n} *)
  match n with O => Eps | S n' => opt (Seq (Cls p) (upto n' p)) end.

Definition is_char (a : ascii) (c : cp) : bool := (c =? chr a)%N.
Definition one_of (s : string) (c : cp) : bool :=
  existsb (fun a => (c =? chr a)%N) (list_ascii_of_string s).
Arguments is_char a%_char c.
Arguments one_of s%_string c.
Definition any_char (_ : cp) : bool := true.                (* . with DOTALL *)

(** A literal character. *)
Definition lit (a : ascii) : regex := Cls (is_char a).
Definition lits (s : string) : regex := seqs (map lit (list_ascii_of_string s)).
Arguments lit a%_char.
Arguments lits s%_string.

(** ** IGNORECASE on [str] patterns

    [re] compares the simple lowercase of the text character with the
    lowercased pattern character, and adds a few fixed equivalences.  For
    the ASCII letters this gives, besides the two cases of the letter:
    U+0130 and U+0131 for "i", U+017F for "s", U+212A for "k". *)
Definition ci_extra (l c : cp) : bool :=
  ((l =? 105) && ((c =? 304) || (c =? 305))
   || (l =? 115) && (c =? 383)
   || (l =? 107) && (c =? 8490))%N.

(** A pattern character [a] under IGNORECASE. *)
Definition is_char_ci (a : ascii) (c : cp) : bool :=
  let l := lower_ascii_char (chr a) in
  if is_lower_ascii l
  then (c =? l)%N || (c =? l - 32)%N || ci_extra l c
  else (c =? l)%N.

Definition ilit (a : ascii) : regex := Cls (is_char_ci a).
Definition ilits (s : string) : regex := seqs (map ilit (list_ascii_of_string s)).
Arguments is_char_ci a%_char c.
Arguments ilit a%_char.
Arguments ilits s%_string.

(** [[a-zA-Z]] under IGNORECASE: the 52 ASCII letters and the four
    characters above. *)
Definition is_letter_ci (c : cp) : bool :=
  is_letter_ascii c || (c =? 304)%N || (c =? 305)%N || (c =? 383)%N
  || (c =? 8490)%N.

Definition is_nl (c : cp) : bool := (c =? NL)%N.
Definition nl : regex := Cls is_nl.                          (* \n *)

Definition is_some {X : Type} (o : option X) : bool :=
  match o with Some _ => true | None => false end.

Definition text_eqb (a b : text) : bool :=
  if text_eq_dec a b then true else false.

(* ------------------------------------------------------------------ *)
(** * resume_parser.py *)

(** The dictionary [parse_resume_info] returns. *)
Record CandidateRecord := {
  name : option text;
  email : option text;
  phone : option text;
  skills : list text;
  experience : list text;
  education : list text;
  raw_text : text
}.

(** An entity of [doc.ents]: [ent.label_] and [ent.text]. *)
Record entity := { label_ : text; ent_text : text }.

(** [sort(key=len, reverse=True)]: stable, longest first. *)
Fixpoint insert_by_len (x : text) (l : list text) : list text :=
  match l with
  | [] => [x]
  | y :: l' =>
      if (length y <=? length x)%nat then x :: l else y :: insert_by_len x l'
  end.

Definition sort_len_desc (l : list text) : list text :=
  fold_right insert_by_len [] l.

(** The patterns of [parse_resume_info] that do not depend on the input. *)

(** [[a-zA-Z0-9._%+-]] *)
Definition email_local (c : cp) : bool :=
  is_letter_ascii c || is_digit_ascii c || one_of "._%+-" c.
(** [[a-zA-Z0-9.-]] *)
Definition email_domain (c : cp) : bool :=
  is_letter_ascii c || is_digit_ascii c || one_of ".-" c.

(** [[a-zA-Z0-9._%+-]+@[a-zA-Z0-9.-]+\.[a-zA-Z]{2,}] *)
Definition email_pattern : regex :=
  seqs [plus email_local; lit "@"; plus email_domain; lit ".";
        Cls is_letter_ascii; Cls is_letter_ascii; Star true is_letter_ascii].

(** [[a-zA-Z\s]] under IGNORECASE *)
Definition letter_or_space (c : cp) : bool := is_letter_ci c || isspace c.

(** [(?:university|institute|college|school)\s+of\s+([a-zA-Z\s]+)|([a-zA-Z\s]+(?:university|institute|college))],
    IGNORECASE *)
Definition university_pattern : regex :=
  Alt (seqs [Alt (ilits "university")
               (Alt (ilits "institute") (Alt (ilits "college") (ilits "school")));
             plus isspace; ilits "of"; plus isspace;
             Grp 1 (plus letter_or_space)])
      (Grp 2 (seqs [plus letter_or_space;
                    Alt (ilits "university")
                      (Alt (ilits "institute") (ilits "college"))])).

(** [[^.\n]] *)
Definition not_dot_nl (c : cp) : bool := negb (is_char "." c || is_nl c).

(** An abbreviated degree, [a\.?\s?b], IGNORECASE *)
Definition abbr (a b : string) : regex :=
  seqs [ilits a; opt (lit "."); opt (Cls isspace); ilits b].
Arguments abbr (a b)%_string.

(** [(?:b\.?\s?s|m\.?\s?s|b\.?\s?a|ph\.?\s?d|bachelor|master|doctor|eng\.)[^.\n]*?(?:in|of)\s+([a-zA-Z\s]+)],
    IGNORECASE *)
Definition degree_pattern : regex :=
  seqs [Alt (abbr "b" "s")
          (Alt (abbr "m" "s")
             (Alt (abbr "b" "a")
                (Alt (abbr "ph" "d")
                   (Alt (ilits "bachelor")
                      (Alt (ilits "master")
                         (Alt (ilits "doctor") (Seq (ilits "eng") (lit "."))))))));
        Star false not_dot_nl;
        Alt (ilits "in") (ilits "of");
        plus isspace;
        Grp 1 (plus letter_or_space)].

(** [(?:keyword)\s*(.*?)(\n\n|$)], IGNORECASE | DOTALL *)
Definition section_pattern (keyword : string) : regex :=
  seqs [ilits keyword; Star true isspace; Grp 1 (Star false any_char);
        Grp 2 (Alt (Seq nl nl) EndDollar)].
Arguments section_pattern keyword%_string.

Definition experience_keywords : list string :=
  ["experience"; "work history"; "employment"; "professional background"]%string.

Definition education_keywords : list string :=
  ["education"; "academic background"; "qualifications"]%string.

Section Parser.
Variable U : unicode_db.
(** [nlp(text).ents], spaCy's entity recogniser. *)
Variable nlp : text -> list entity.
(** The lines of data/common_skills.txt, or [None] when the file is missing. *)
Variable skills_file : option (list text).

(** [load_common_skills]: a set of the stripped, lowercased lines, returned
    as a list.  The order of that list is not determined by Python; the
    order of first occurrence is taken here. *)
Definition load_common_skills : list text :=
  match skills_file with
  | Some lines =>
      nodup text_eq_dec (map (fun line => lower U (strip line)) lines)
  | None => []
  end.

Definition KNOWN_SKILLS : list text := sort_len_desc load_common_skills.

(** [\d{10}] *)
Definition ten_digits : regex := times 10 (isdigit U).

(** [(?:\+?(\d{1,3}))?[-. (]*(\d{3})[-. )]*(\d{3})[-. ]*(\d{4})(?: *x(\d+))?] *)
Definition phone_pattern : regex :=
  let d := isdigit U in
  seqs [opt (Seq (opt (lit "+")) (Grp 1 (Seq (Cls d) (upto 2 d))));
        Star true (one_of "-. (");
        Grp 2 (times 3 d);
        Star true (one_of "-. )");
        Grp 3 (times 3 d);
        Star true (one_of "-. ");
        Grp 4 (times 4 d);
        opt (seqs [Star true (is_char " "); lit "x"; Grp 5 (plus d)])].

(** [(\d+)\s*(?:years|yrs?)\s+(?:of)?\s*(?:experience|exp|background)],
    IGNORECASE *)
Definition years_experience_pattern : regex :=
  seqs [Grp 1 (plus (isdigit U)); Star true isspace;
        Alt (ilits "years") (Seq (ilits "yr") (opt (ilit "s")));
        plus isspace; opt (ilits "of"); Star true isspace;
        Alt (ilits "experience") (Alt (ilits "exp") (ilits "background"))].

(** [\b(?:19|20)\d{2}\b] *)
Definition year_pattern : regex :=
  seqs [WordB (isword U); Alt (lits "19") (lits "20");
        times 2 (isdigit U); WordB (isword U)].

(** Step 1, the PERSON entity: the first one of at least two words. *)
Definition name_from_entities (resume_text : text) : option text :=
  option_map (@ent_text)
    (find (fun ent =>
             text_eqb (label_ ent) (str "PERSON")
             && (2 <=? length (split_ws (ent_text ent)))%nat)
          (nlp resume_text)).

(** Step 1, the fallback over the first three non-blank lines. *)
Definition name_from_lines (resume_text : text) : option text :=
  let lines :=
    map strip
      (filter (fun line => nonempty (strip line)) (split_by is_nl resume_text)) in
  find (fun line =>
          negb (has_char (chr "@") line)
          && negb (is_some (re_search ten_digits line))
          && (length (split_ws line) <? 5)%nat)
       (firstn 3 lines).

Definition extract_name (resume_text : text) : option text :=
  match name_from_entities resume_text with
  | Some n => Some n
  | None => name_from_lines resume_text
  end.

(** Step 2: [emails[0]] and the joined groups of [phones[0]]. *)
Definition extract_email (resume_text : text) : option text :=
  option_map m_text (re_search email_pattern resume_text).

Definition extract_phone (resume_text : text) : option text :=
  option_map
    (fun m => concat (map (group_or_empty m) [1; 2; 3; 4; 5]%nat))
    (re_search phone_pattern resume_text).

(** Step 3: the vocabulary entries whose lowercase occurs in the lowercased
    text, as a set. *)
Definition extract_skills (text_lower : text) : list text :=
  nodup text_eq_dec
    (filter (fun skill => is_substring (lower U skill) text_lower) KNOWN_SKILLS).

(** Step 4, the loop over [experience_keywords].  Its result,
    [experience_section], is not used by the rest of the function. *)
Fixpoint experience_section_loop (keywords : list string) (text_lower : text)
  : text :=
  match keywords with
  | [] => []
  | keyword :: rest =>
      if is_substring (str keyword) text_lower then
        match re_search (section_pattern keyword) text_lower with
        | Some m => m_text m
        | None => experience_section_loop rest text_lower
        end
      else experience_section_loop rest text_lower
  end.

Definition experience_section (text_lower : text) : text :=
  experience_section_loop experience_keywords text_lower.

(** Step 4: the one canonical fragment. *)
Definition extract_experience (text_lower : text) : list text :=
  match re_search years_experience_pattern text_lower with
  | Some m => [group_or_empty m 1 ++ str " years experience"]
  | None => []
  end.

(** Step 5, inside the section found: degree, institution, year. *)
Definition education_fragments (education_section_text : text) : list text :=
  (match re_search degree_pattern education_section_text with
   | Some m => [str "Degree: " ++ strip (group_or_empty m 1)]
   | None => []
   end)
  ++ (match re_search university_pattern education_section_text with
      | Some m =>
          let uni := if nonempty (group_or_empty m 1)
                     then group_or_empty m 1 else group_or_empty m 2 in
          [str "University: " ++ strip uni]
      | None => []
      end)
  ++ (match re_search year_pattern education_section_text with
      | Some m => [str "Year: " ++ m_text m]
      | None => []
      end).

(** Step 5, the loop over [education_keywords], left at the first keyword
    whose section pattern matches. *)
Fixpoint extract_education_loop (keywords : list string) (text_lower : text)
  : list text :=
  match keywords with
  | [] => []
  | keyword :: rest =>
      if is_substring (str keyword) text_lower then
        match re_search (section_pattern keyword) text_lower with
        | Some m => education_fragments (m_text m)
        | None => extract_education_loop rest text_lower
        end
      else extract_education_loop rest text_lower
  end.

Definition parse_resume_info (resume_text : text) : CandidateRecord :=
  let text_lower := lower U resume_text in
  {| name := extract_name resume_text;
     email := extract_email resume_text;
     phone := extract_phone resume_text;
     skills := extract_skills text_lower;
     experience := extract_experience text_lower;
     education := extract_education_loop education_keywords text_lower;
     raw_text := resume_text |}.

End Parser.

(* ------------------------------------------------------------------ *)
(** * scoring_logic.py *)

(** The dictionary [_extract_jd_requirements] returns. *)
Record JobRequirements := {
  jd_skills : list text;
  jd_responsibilities : list text;
  jd_experience_years : Z;
  jd_education : list text
}.

(** The common tail of the three section patterns, after the header:
    [:?\s*(.*?)(?:\n\n|\n[A-Z][a-zA-Z\s]+:|\Z)], IGNORECASE | DOTALL. *)
Definition jd_section_pattern (header : regex) : regex :=
  seqs [header; opt (lit ":"); Star true isspace;
        Grp 1 (Star false any_char);
        Alt (Seq nl nl)
          (Alt (seqs [nl; Cls is_letter_ci; plus letter_or_space; lit ":"])
               EndZ)].

(** [(?:(?:required|key)\s+skills|skills|technical\s+qualifications)] *)
Definition skills_header : regex :=
  Alt (seqs [Alt (ilits "required") (ilits "key"); plus isspace; ilits "skills"])
      (Alt (ilits "skills")
           (seqs [ilits "technical"; plus isspace; ilits "qualifications"])).

(** [(?:key\s+responsibilities|responsibilities|duties)] *)
Definition responsibilities_header : regex :=
  Alt (seqs [ilits "key"; plus isspace; ilits "responsibilities"])
      (Alt (ilits "responsibilities") (ilits "duties")).

(** [(?:education|qualifications|academic\s+background)] *)
Definition education_header : regex :=
  Alt (ilits "education")
      (Alt (ilits "qualifications")
           (seqs [ilits "academic"; plus isspace; ilits "background"])).

(** [[,;\n]] *)
Definition is_fragment_separator (c : cp) : bool := one_of ",;" c || is_nl c.

(** What the code does with a captured section: the three [replace] calls,
    [strip], [re.split] and the comprehension that trims the pieces and
    drops the empty ones. *)
Definition section_fragments (captured : text) : list text :=
  let section_text :=
    strip (remove_char BULLET (remove_char (chr "-") (remove_char (chr "*") captured))) in
  map strip
    (filter (fun s => nonempty (strip s))
            (split_by is_fragment_separator section_text)).

(** One of the three section extractions: the search, and the fragments of
    [group(1)] when it matches. *)
Definition extract_section (header : regex) (jd_lower : text) : list text :=
  match re_search (jd_section_pattern header) jd_lower with
  | Some m => section_fragments (group_or_empty m 1)
  | None => []
  end.

Section Miner.
Variable U : unicode_db.

(** [(\d+)\s*(?:\+|plus)?\s*(?:years|yrs?)\s+(?:of\s+)?(?:experience|exp)],
    IGNORECASE *)
Definition jd_experience_pattern : regex :=
  seqs [Grp 1 (plus (isdigit U)); Star true isspace;
        opt (Alt (lit "+") (ilits "plus")); Star true isspace;
        Alt (ilits "years") (Seq (ilits "yr") (opt (ilit "s")));
        plus isspace; opt (Seq (ilits "of") (plus isspace));
        Alt (ilits "experience") (ilits "exp")].

Definition _extract_jd_requirements (jd_text : text) : JobRequirements :=
  let jd_lower := lower U jd_text in
  {| jd_skills := extract_section skills_header jd_lower;
     jd_responsibilities := extract_section responsibilities_header jd_lower;
     jd_experience_years :=
       match re_search jd_experience_pattern jd_lower with
       | Some m => int_of_digits U (group_or_empty m 1)
       | None => 0%Z
       end;
     jd_education := extract_section education_header jd_lower |}.

End Miner.

(** ** Numbers *)

(** [int(x)] of a float: truncation towards zero. *)
Definition int_of_Q (x : Q) : Z := Z.quot (Qnum x) (Zpos (Qden x)).

(** The nearest integer, ties to the even one. *)
Definition round_half_even (x : Q) : Z :=
  let f := Qfloor x in
  match (x - inject_Z f ?= 1 # 2)%Q with
  | Lt => f
  | Gt => (f + 1)%Z
  | Eq => if Z.even f then f else (f + 1)%Z
  end.

(** [round(x, 2)] *)
Definition round2 (x : Q) : Q := (inject_Z (round_half_even (x * 100)) / 100)%Q.

(** [x > y] on numbers. *)
Definition Qgtb (x y : Q) : bool := negb (Qle_bool x y).

Definition Qmax (x y : Q) : Q := if Qle_bool x y then y else x.

Section Scorer.
Variable U : unicode_db.
(** The sentence encoder: [sbert_model.encode] and [util.cos_sim]. *)
Variable embedding : Type.
Variable encode : text -> embedding.
Variable cos_sim : embedding -> embedding -> Q.

(** [cosine_scores[i].max().item()]: the best similarity of one required
    skill over the resume skills; [None] for an empty row. *)
Definition max_sim (jd_skill : text) (resume_skills : list text) : option Q :=
  match map (fun s => cos_sim (encode jd_skill) (encode s)) resume_skills with
  | [] => None
  | x :: xs => Some (fold_left Qmax xs x)
  end.

(** The loop over the required skills: those whose best similarity exceeds
    0.6. *)
Definition matched_jd_skills (jd_required_skills resume_skills : list text)
  : nat :=
  length
    (filter (fun jd_skill =>
               match max_sim jd_skill resume_skills with
               | Some m => Qgtb m (6 # 10)
               | None => false
               end)
            jd_required_skills).

(** 1. Skill matching: the sub-score and its sentence. *)
Definition skill_match (c : CandidateRecord) (jd : JobRequirements) : Q * text :=
  let resume_skills := skills c in
  let jd_required_skills := jd_skills jd in
  match jd_required_skills with
  | _ :: _ =>
      match resume_skills with
      | _ :: _ =>
          let matched := matched_jd_skills jd_required_skills resume_skills in
          let skill_match_score :=
            (inject_Z (Z.of_nat matched)
             / inject_Z (Z.of_nat (length jd_required_skills)) * 100)%Q in
          (skill_match_score,
           str "Matched " ++ str_of_Z (Z.of_nat matched) ++ str "/"
           ++ str_of_Z (Z.of_nat (length jd_required_skills))
           ++ str " key skills (" ++ str_of_Z (int_of_Q skill_match_score)
           ++ str "%).")
      | [] => (0%Q, str "No skills found in resume to match against JD skills.")
      end
  | [] => (100%Q, str "No specific skills required in JD.")
  end.

(** [(\d+)\s+years], IGNORECASE *)
Definition resume_years_pattern : regex :=
  seqs [Grp 1 (plus (isdigit U)); plus isspace; ilits "years"].

Definition experience_years_in_resume (c : CandidateRecord) : Z :=
  match experience c with
  | _ :: _ =>
      match re_search resume_years_pattern (join (str " ") (experience c)) with
      | Some m => int_of_digits U (group_or_empty m 1)
      | None => 0%Z
      end
  | [] => 0%Z
  end.

(** 2. Experience years: the sub-score and its sentence. *)
Definition experience_match (c : CandidateRecord) (jd : JobRequirements)
  : Q * text :=
  let n := experience_years_in_resume c in
  let jd_min_experience_years := jd_experience_years jd in
  if (0 <? jd_min_experience_years)%Z then
    if (jd_min_experience_years <=? n)%Z then
      (100%Q,
       str "Meets/Exceeds " ++ str_of_Z jd_min_experience_years
       ++ str " years experience (" ++ str_of_Z n ++ str " years found).")
    else
      ((if (0 <? jd_min_experience_years)%Z
        then inject_Z n / inject_Z jd_min_experience_years * 100
        else 0)%Q,
       str "Has " ++ str_of_Z n ++ str " years experience (requires "
       ++ str_of_Z jd_min_experience_years ++ str ").")
  else (100%Q, str "No minimum experience required in JD.").

(** 3. Responsibilities: the sub-score and its sentence. *)
Definition responsibility_match (c : CandidateRecord) (jd : JobRequirements)
  : Q * text :=
  if nonempty (jd_responsibilities jd) && nonempty (raw_text c) then
    let jd_resp_text := join (str " ") (jd_responsibilities jd) in
    let sim := cos_sim (encode jd_resp_text) (encode (raw_text c)) in
    let responsibility_score := (sim * 100)%Q in
    (responsibility_score,
     str "Overall resume content aligns with responsibilities ("
     ++ str_of_Z (int_of_Q responsibility_score) ++ str "%).")
  else
    (50%Q,
     str "Cannot assess responsibilities due to missing JD or resume content.").

(** 4. Education: the sub-score and its sentence. *)
Definition education_match (c : CandidateRecord) (jd : JobRequirements)
  : Q * text :=
  let resume_education_text := join (str " ") (education c) in
  match jd_education jd with
  | _ :: _ =>
      let matched_edu :=
        if existsb (fun req_edu =>
                      is_substring (lower U req_edu) (lower U resume_education_text))
                   (jd_education jd)
        then 1%Z else 0%Z in
      let education_score := (matched_edu * 100)%Z in
      (inject_Z education_score,
       str "Education matches JD requirements (" ++ str_of_Z education_score
       ++ str "%).")
  | [] => (100%Q, str "No specific education required in JD.")
  end.

(** The weighted sum accumulated in [total_score]. *)
Definition total_score (skill experience responsibility education : Q) : Q :=
  (0 + skill * (40 # 100) + experience * (30 # 100)
   + responsibility * (20 # 100) + education * (10 # 100))%Q.

Definition score_resume (parsed_resume_data : CandidateRecord)
    (job_description_text : text) : Q * text :=
  let jd_requirements := _extract_jd_requirements U job_description_text in
  let '(skill_match_score, r1) := skill_match parsed_resume_data jd_requirements in
  let '(experience_score, r2) := experience_match parsed_resume_data jd_requirements in
  let '(responsibility_score, r3) :=
    responsibility_match parsed_resume_data jd_requirements in
  let '(education_score, r4) := education_match parsed_resume_data jd_requirements in
  (round2 (total_score skill_match_score experience_score
                       responsibility_score education_score),
   join (str " ") [r1; r2; r3; r4]).

End Scorer.

(* ------------------------------------------------------------------ *)
(** * app.py: the guard in front of extraction *)

Inductive exn : Type :=
| ValueError (msg : text).

Inductive outcome (A : Type) : Type :=
| Returned (a : A)
| Raised (e : exn).
Arguments Returned {A} a.
Arguments Raised {A} e.

Section Endpoint.
Variable U : unicode_db.
Variable nlp : text -> list entity.
Variable skills_file : option (list text).

(** Steps 1 and 2 of the [try] block of [screen_resumes_endpoint], from the
    value [extract_text_from_file] returned ([None] or a string): the
    [if not raw_text: raise ValueError(...)] guard, then the call of
    [parse_resume_info]. *)
Definition extract_and_parse (raw_text : option text) : outcome CandidateRecord :=
  match raw_text with
  | Some t =>
      if nonempty t then Returned (parse_resume_info U nlp skills_file t)
      else Raised (ValueError (str
             "Could not extract text from resume. File might be empty or unreadable."))
  | None =>
      Raised (ValueError (str
        "Could not extract text from resume. File might be empty or unreadable."))
  end.

End Endpoint.

(* ------------------------------------------------------------------ *)
(** * Notions used by the statements *)

(** A text of whitespace only (the empty text included). *)
Definition blank (s : text) : Prop := Forall (fun c => isspace c = true) s.

(** The characters [isspace] accepts. *)
Definition whitespace_chars : list cp :=
  [9; 10; 11; 12; 13; 28; 29; 30; 31; 32; 133; 160; 5760; 8192; 8193; 8194;
   8195; 8196; 8197; 8198; 8199; 8200; 8201; 8202; 8232; 8233; 8239; 8287;
   12288]%N.

(** A sufficient condition for a pattern to have no match inside a blank
    text: it cannot be matched without reading a character that is not
    whitespace. *)
Fixpoint rejects_blank (r : regex) : Prop :=
  match r with
  | Cls p => forall c, isspace c = true -> p c = false
  | Seq r1 r2 => rejects_blank r1 \/ rejects_blank r2
  | Alt r1 r2 => rejects_blank r1 /\ rejects_blank r2
  | Grp _ r1 => rejects_blank r1
  | _ => False
  end.

(** Every character the pattern reads satisfies [P]. *)
Fixpoint reads_only (P : cp -> Prop) (r : regex) : Prop :=
  match r with
  | Cls p | Star _ p => forall c, p c = true -> P c
  | Seq r1 r2 | Alt r1 r2 => reads_only P r1 /\ reads_only P r2
  | Grp _ r1 => reads_only P r1
  | _ => True
  end.

(** Group [n] of the pattern reads only characters that satisfy [Q n]. *)
Fixpoint groups_read (Q : nat -> cp -> Prop) (r : regex) : Prop :=
  match r with
  | Seq r1 r2 | Alt r1 r2 => groups_read Q r1 /\ groups_read Q r2
  | Grp n r1 => reads_only (Q n) r1 /\ groups_read Q r1
  | _ => True
  end.

(** Every captured group [n] is made of characters that satisfy [Q n]. *)
Definition caps_by (Q : nat -> cp -> Prop) (c : caps) : Prop :=
  Forall (fun nt => Forall (Q (fst nt)) (snd nt)) c.

(** Group 1 is the only group, and it is made of decimal digits. *)
Definition digits_in_group_1 (U : unicode_db) (n : nat) (c : cp) : Prop :=
  isdigit U c = true.

(** The order of the vocabulary: longer phrases first. *)
Definition longer_first (a b : text) : Prop := (length b <= length a)%nat.

(** Every captured group satisfies [P]. *)
Definition caps_ok (P : text -> Prop) (c : caps) : Prop :=
  Forall (fun nt => P (snd nt)) c.

(** ** Sample inputs and stand-ins for the external capabilities *)

(** An entity recogniser that finds nothing. *)
Definition no_entities (_ : text) : list entity := [].

(** An encoder that keeps the text, with a similarity of 1 between equal
    texts and 1/4 between different ones. *)
Definition identity_encoder (t : text) : text := t.
Definition exact_match_similarity (a b : text) : Q :=
  if text_eq_dec a b then 1%Q else (1 # 4)%Q.

Definition sample_skills_file : option (list text) :=
  Some [str "Python"; str "SQL"; str "Machine Learning"].

Definition sample_candidate (years : string) : CandidateRecord :=
  {| name := Some (str "John Doe");
     email := Some (str "john.doe@example.com");
     phone := None;
     skills := [str "python"; str "sql"];
     experience := [str years ++ str " years experience"];
     education := [str "Degree: computer science"];
     raw_text := str "John Doe, software engineer, Python and SQL" |}.
Arguments sample_candidate years%_string.

(** A job description with responsibilities and a minimum experience, and
    neither a skills nor an education section. *)
Definition jd_without_skills : text :=
  lines_text ["Responsibilities:"; "- fix pipes"; ""; "3+ years of experience"]%string.

(** A job description with skills and education sections. *)
Definition jd_with_education : text :=
  lines_text ["Skills: Python, AWS"; ""; "Education: Computer Science"; "";
              "5 years of experience"]%string.

(** A job description that lists its skills one per line, the section
    closed by a blank line. *)
Definition jd_one_skill_per_line : text :=
  lines_text ["Skills:"; "python"; "java"; "sql"; ""; "Education:";
              "Bachelor degree"]%string.

(** The job description and the resume of the [__main__] blocks of
    scoring_logic.py and resume_parser.py. *)
Definition dummy_jd : text :=
  lines_text
    [""; "    Job Summary: Seeking a talented Senior Software Engineer with a passion for building scalable solutions.";
     "";
     "    Key Responsibilities:";
     "    - Design and implement microservices using Python.";
     "    - Develop and deploy Machine Learning models.";
     "    - Collaborate with product and design teams.";
     "    - Mentor junior engineers.";
     "";
     "    Required Qualifications:";
     "    - Bachelor's degree in Computer Science or related field.";
     "    - 5+ years of experience in software development.";
     "    - Strong skills in Python, AWS, SQL, Machine Learning.";
     "";
     "    What We Offer:";
     "    - Competitive salary and benefits.";
     "    - Flexible work environment.";
     "    "]%string.

Definition dummy_resume : text :=
  lines_text
    ["John Doe"; "Software Engineer"; "john.doe@example.com"; "+919876543210";
     "";
     "Summary: Highly motivated software engineer with 5 years of experience in developing scalable web applications.";
     "";
     "Skills:";
     "Python, Java, SQL, AWS, Docker, Kubernetes, Machine Learning, Data Structures, Algorithms, Communication, Leadership";
     "";
     "Experience:"; "Senior Software Engineer";
     "Tech Solutions Pvt. Ltd., Bengaluru"; "Jan 2020 - Present";
     "- Led development of microservices using Python and Flask.";
     "- Implemented ML models for fraud detection, reducing incidents by 15%.";
     "- Mentored junior developers and conducted code reviews.";
     "";
     "Software Developer"; "Innovate Corp., Chennai"; "Aug 2018 - Dec 2019";
     "- Developed RESTful APIs using Java and Spring Boot.";
     "- Contributed to database design and optimization (SQL).";
     "";
     "Education:"; "B.Tech in Computer Science"; "XYZ University, Bengaluru";
     "2014 - 2018"; "GPA: 9.0/10.0"; ""]%string.

(** A blank text that is not empty: spaces, a line end, a tab. *)
Definition blank_sample : text := [32; 32; 10; 9; 32]%N.

(** The record of a resume in which nothing was found. *)
Definition hollow_record (resume_text : text) : CandidateRecord :=
  {| name := None; email := None; phone := None; skills := [];
     experience := []; education := []; raw_text := resume_text |}.

(** The three sentences the scorer uses for a missing requirement. *)
Definition no_skills_sentence : text := str "No specific skills required in JD.".
Definition no_education_sentence : text :=
  str "No specific education required in JD.".
Definition cannot_assess_sentence : text :=
  str "Cannot assess responsibilities due to missing JD or resume content.".

(** ** What a pattern matches

    [den r pre l post cs]: the pattern [r] matches the text [l] that stands
    between [pre] (reversed) and [post], and captures the groups [cs] (most
    recent first).  It says which texts a pattern can match, not which of
    them [re] prefers. *)
Fixpoint den (r : regex) (pre l post : text) (cs : caps) : Prop :=
  match r with
  | Eps => l = [] /\ cs = []
  | Cls p => exists x, l = [x] /\ p x = true /\ cs = []
  | Seq r1 r2 =>
      exists l1 l2 cs1 cs2,
        l = l1 ++ l2 /\ cs = cs2 ++ cs1
        /\ den r1 pre l1 (l2 ++ post) cs1
        /\ den r2 (rev l1 ++ pre) l2 post cs2
  | Alt r1 r2 => den r1 pre l post cs \/ den r2 pre l post cs
  | Star _ p => Forall (fun x => p x = true) l /\ cs = []
  | Grp n r1 => exists cs1, den r1 pre l post cs1 /\ cs = (n, l) :: cs1
  | EndZ => l = [] /\ cs = [] /\ post = []
  | EndDollar => l = [] /\ cs = [] /\ (post = [] \/ post = [NL])
  | WordB w => l = [] /\ cs = [] /\ at_word_boundary w pre post = true
  end.

(** A pattern without capturing group. *)
Fixpoint has_no_group (r : regex) : bool :=
  match r with
  | Seq r1 r2 | Alt r1 r2 => has_no_group r1 && has_no_group r2
  | Grp _ _ => false
  | _ => true
  end.



(** A labelled education fragment, when its value was found. *)
Definition labelled (label : string) (value : option text) : list text :=
  match value with
  | Some v => [str label ++ v]
  | None => []
  end.
Arguments labelled label%_string value.

(** The value of a degree or an institution: trimmed, and made of letters
    (as [[a-zA-Z]] reads them under IGNORECASE) and whitespace. *)
Definition is_trimmed_words (v : text) : Prop :=
  strip v = v /\ Forall (fun c => letter_or_space c = true) v.

(** The value of a year: "19" or "20" and two decimal digits. *)
Definition is_year (U : unicode_db) (y : text) : Prop :=
  exists d1 d2,
    (y = str "19" ++ [d1; d2] \/ y = str "20" ++ [d1; d2])
    /\ isdigit U d1 = true /\ isdigit U d2 = true.

Definition option_holds {X : Type} (P : X -> Prop) (o : option X) : Prop :=
  match o with Some x => P x | None => True end.

(** A mined fragment as the code leaves it: not empty, trimmed, and free
    of "*", "-", the bullet U+2022, ",", ";" and the newline. *)
Definition is_clean_fragment (f : text) : Prop :=
  f <> [] /\ strip f = f
  /\ Forall (fun c => c <> chr "*" /\ c <> chr "-" /\ c <> BULLET
                      /\ is_fragment_separator c = false) f.

(** The requirements of a job description that names none. *)
Definition no_requirements : JobRequirements :=
  {| jd_skills := []; jd_responsibilities := []; jd_experience_years := 0;
     jd_education := [] |}.

(** The reasoning for a job description without requirements. *)
Definition no_requirements_reasoning : text :=
  str "No specific skills required in JD. No minimum experience required in JD. Cannot assess responsibilities due to missing JD or resume content. No specific education required in JD.".


(** A candidate record with its skills replaced. *)
Definition with_skills (c : CandidateRecord) (new_skills : list text)
  : CandidateRecord :=
  {| name := name c; email := email c; phone := phone c;
     skills := new_skills; experience := experience c;
     education := education c; raw_text := raw_text c |}.

(* ------------------------------------------------------------------ *)
(** * app.py: the endpoint [/screen_resumes]

    The request is the form field and the uploaded files; the response is
    the JSON body with its status.  The database functions of
    database/db_manager.py, [secure_filename] and [extract_text_from_file]
    (which is not among the sources) are parameters: the endpoint is
    modelled as a function of what they return, the database as a state
    passed along.  Logging and the temporary file are left out; an
    exception raised inside one of the parameters is not modelled. *)

(** An uploaded file: [resume_file.filename] and the file itself. *)
Record upload (file : Type) := {
  up_filename : text;
  up_file : file
}.
Arguments up_filename {file} u.
Arguments up_file {file} u.

(** [request.form] and [request.files], as far as the endpoint reads them:
    [None] for a missing key. *)
Record request (file : Type) := {
  form_job_description : option text;
  files_resume_files : option (list (upload file))
}.
Arguments form_job_description {file} r.
Arguments files_resume_files {file} r.

(** One entry of "candidates" in the response. *)
Record candidate_entry := {
  cj_id : option Z;              (* null when nothing was stored *)
  cj_filename : text;
  cj_name : option text;         (* null when no name was found *)
  cj_score : Q;
  cj_reasoning : text;
  cj_extracted_skills : list text
}.

Inductive response : Type :=
| Bad_request (error : text)                   (* status 400 *)
| Success (candidates : list candidate_entry). (* status 200 *)

(** [sort(key=lambda x: x['score'], reverse=True)]: stable, highest score
    first. *)
Fixpoint insert_by_score (x : candidate_entry) (l : list candidate_entry)
  : list candidate_entry :=
  match l with
  | [] => [x]
  | y :: l' =>
      if Qle_bool (cj_score y) (cj_score x) then x :: l
      else y :: insert_by_score x l'
  end.

Definition sort_by_score_desc (l : list candidate_entry)
  : list candidate_entry :=
  fold_right insert_by_score [] l.

(** Python truthiness of [resume_db_id]: an id that is neither [None]
    nor 0. *)
Definition truthy_id (resume_db_id : option Z) : bool :=
  match resume_db_id with
  | Some i => negb (i =? 0)%Z
  | None => false
  end.

Section ScreenResumes.
Variable U : unicode_db.
Variable nlp : text -> list entity.
Variable skills_file : option (list text).
Variable embedding : Type.
Variable encode : text -> embedding.
Variable cos_sim : embedding -> embedding -> Q.
(** The uploaded files and the text extracted from the saved copy of one,
    whose name ends with the suffix of the given file name. *)
Variable file : Type.
Variable secure_filename : text -> text.
Variable extract_text_from_file : text -> file -> option text.
(** The database, and the two functions of db_manager.py the endpoint
    calls: each returns [cursor.lastrowid], or [None] on failure. *)
Variable db : Type.
Variable insert_resume : text -> CandidateRecord -> db -> option Z * db.
Variable insert_screening_result : Z -> text -> Q -> text -> db -> option Z * db.

(** The body of the loop for one file with a name: the [try] block, its
    two [except] clauses and the entry appended to [processed_candidates]. *)
Definition process_resume_file (job_description : text) (resume_file : upload file)
    (d : db) : candidate_entry * db :=
  let original_filename := secure_filename (up_filename resume_file) in
  match extract_and_parse U nlp skills_file
          (extract_text_from_file original_filename (up_file resume_file)) with
  | Raised (ValueError ve) =>
      ({| cj_id := None;
          cj_filename := original_filename;
          cj_name := Some (str "N/A");
          cj_score := round2 0;
          cj_reasoning := str "File processing/parsing error: " ++ ve;
          cj_extracted_skills := [] |}, d)
  | Returned parsed_data =>
      let '(resume_db_id, d1) := insert_resume original_filename parsed_data d in
      match resume_db_id with
      | Some id =>
          if truthy_id resume_db_id then
            let '(ai_score, ai_reasoning) :=
              score_resume U encode cos_sim parsed_data job_description in
            let '(_, d2) :=
              insert_screening_result id job_description ai_score ai_reasoning d1 in
            ({| cj_id := resume_db_id;
                cj_filename := original_filename;
                cj_name := name parsed_data;
                cj_score := round2 ai_score;
                cj_reasoning := ai_reasoning;
                cj_extracted_skills := skills parsed_data |}, d2)
          else
            ({| cj_id := resume_db_id;
                cj_filename := original_filename;
                cj_name := name parsed_data;
                cj_score := round2 0;
                cj_reasoning :=
                  str "Server error during processing: Failed to save resume to database.";
                cj_extracted_skills := skills parsed_data |}, d1)
      | None =>
          ({| cj_id := None;
              cj_filename := original_filename;
              cj_name := name parsed_data;
              cj_score := round2 0;
              cj_reasoning :=
                str "Server error during processing: Failed to save resume to database.";
              cj_extracted_skills := skills parsed_data |}, d1)
      end
  end.

(** The loop over [resume_files]: a file without a name is skipped. *)
Fixpoint process_resume_files (job_description : text)
    (resume_files : list (upload file)) (d : db)
  : list candidate_entry * db :=
  match resume_files with
  | [] => ([], d)
  | resume_file :: rest =>
      if nonempty (up_filename resume_file) then
        let '(entry, d1) := process_resume_file job_description resume_file d in
        let '(entries, d2) := process_resume_files job_description rest d1 in
        (entry :: entries, d2)
      else process_resume_files job_description rest d
  end.

Definition screen_resumes_endpoint (req : request file) (d : db)
  : response * db :=
  match form_job_description req with
  | None => (Bad_request (str "Missing 'job_description' form field"), d)
  | Some job_description =>
      match files_resume_files req with
      | None => (Bad_request (str "No 'resume_files' part in the request"), d)
      | Some resume_files =>
          if negb (nonempty resume_files)
             || forallb (fun f => negb (nonempty (up_filename f))) resume_files
          then (Bad_request (str "No files selected or uploaded"), d)
          else
            let '(processed_candidates, d1) :=
              process_resume_files job_description resume_files d in
            (Success (sort_by_score_desc processed_candidates), d1)
      end
  end.

End ScreenResumes.

(** The order of the response: a higher score first. *)
Definition higher_score_first (a b : candidate_entry) : Prop :=
  (cj_score b <= cj_score a)%Q.

(** The files of a request the loop does not skip. *)
Definition named_files {file : Type} (resume_files : list (upload file))
  : list (upload file) :=
  filter (fun f => nonempty (up_filename f)) resume_files.

(** The message of the guard in front of extraction. *)
Definition could_not_extract : text :=
  str "Could not extract text from resume. File might be empty or unreadable.".

(** ** Stand-ins for the parameters of the endpoint

    Files that are their own text, file names kept as they are, and a
    database that is the list of the names stored so far. *)
Definition text_of_file (_ : text) (content : text) : option text :=
  Some content.

Definition keep_filename (filename : text) : text := filename.

Definition insert_into_list (filename : text) (_ : CandidateRecord)
    (d : list text) : option Z * list text :=
  (Some (Z.of_nat (length d) + 1)%Z, d ++ [filename]).

(** A database that refuses every resume. *)
Definition insert_refused (_ : text) (_ : CandidateRecord) (d : list text)
  : option Z * list text := (None, d).

Definition insert_result_ignored (_ : Z) (_ : text) (_ : Q) (_ : text)
    (d : list text) : option Z * list text := (Some 1%Z, d).

(** A request with the resume of resume_parser.py, a file without text and
    a file field without name. *)
Definition sample_request : request text :=
  {| form_job_description := Some jd_with_education;
     files_resume_files :=
       Some [ {| up_filename := str "empty.txt"; up_file := [] |};
              {| up_filename := []; up_file := str "ignored" |};
              {| up_filename := str "john.txt"; up_file := dummy_resume |} ] |}.

(** A record with one skill more than [sample_candidate] lists. *)
Definition sample_candidate_with_aws (years : string) : CandidateRecord :=
  with_skills (sample_candidate years) [str "aws"; str "python"; str "sql"].
Arguments sample_candidate_with_aws years%_string.

(* ------------------------------------------------------------------ *)
(** * Properties *)

Unset Implicit Arguments.

(** ** Texts *)

Lemma starts_with_app (x s : text) : starts_with x (x ++ s) = true.
Proof.
  induction x as [|a x IH]; simpl.
  - reflexivity.
  - now rewrite N.eqb_refl.
Qed.

Lemma starts_with_true (x s : text) :
  starts_with x s = true -> exists b, s = x ++ b.
Proof.
  revert s; induction x as [|a x IH]; intros s H; simpl in *.
  - now exists s.
  - destruct s as [|b s]; [discriminate|].
    apply andb_true_iff in H as [Hab Hx].
    apply N.eqb_eq in Hab; subst b.
    destruct (IH _ Hx) as [t ->]. now exists t.
Qed.

Lemma is_substring_here (x s : text) :
  starts_with x s = true -> is_substring x s = true.
Proof. intros H; destruct s; simpl in *; now rewrite H. Qed.

Lemma is_substring_skip (x a s : text) :
  is_substring x s = true -> is_substring x (a ++ s) = true.
Proof.
  intros H; induction a as [|c a IH]; simpl; [assumption|].
  rewrite IH. apply orb_true_r.
Qed.

(** [x in s] holds when [s] is [a ++ x ++ b]. *)
Lemma is_substring_app (a x b : text) : is_substring x (a ++ x ++ b) = true.
Proof.
  apply is_substring_skip, is_substring_here, starts_with_app.
Qed.

(** ... and only then. *)
Lemma is_substring_true (x s : text) :
  is_substring x s = true -> exists a b, s = a ++ x ++ b.
Proof.
  induction s as [|c s IH]; simpl; intros H.
  - rewrite orb_false_r in H. apply starts_with_true in H as [b ->].
    now exists [], b.
  - apply orb_true_iff in H as [H|H].
    + apply starts_with_true in H as [b ->]. now exists [], b.
    + destruct (IH H) as (a & b & ->). now exists (c :: a), b.
Qed.

Lemma join4 (sep r1 r2 r3 r4 : text) :
  join sep [r1; r2; r3; r4] = r1 ++ sep ++ r2 ++ sep ++ r3 ++ sep ++ r4.
Proof. reflexivity. Qed.

(** Each of the four sentences occurs in the reasoning. *)
Lemma reasoning_has_sentence (sep r1 r2 r3 r4 x : text) :
  x = r1 \/ x = r2 \/ x = r3 \/ x = r4 ->
  is_substring x (join sep [r1; r2; r3; r4]) = true.
Proof.
  rewrite join4. intros [ -> | [ -> | [ -> | -> ] ] ].
  - apply (is_substring_app [] r1).
  - replace (r1 ++ sep ++ r2 ++ sep ++ r3 ++ sep ++ r4)
      with ((r1 ++ sep) ++ r2 ++ (sep ++ r3 ++ sep ++ r4))
      by now rewrite <- !app_assoc.
    apply is_substring_app.
  - replace (r1 ++ sep ++ r2 ++ sep ++ r3 ++ sep ++ r4)
      with ((r1 ++ sep ++ r2 ++ sep) ++ r3 ++ (sep ++ r4))
      by now rewrite <- !app_assoc.
    apply is_substring_app.
  - replace (r1 ++ sep ++ r2 ++ sep ++ r3 ++ sep ++ r4)
      with ((r1 ++ sep ++ r2 ++ sep ++ r3 ++ sep) ++ r4 ++ [])
      by now rewrite <- !app_assoc, app_nil_r.
    apply is_substring_app.
Qed.

(** ** Numbers *)

Lemma int_of_digits_acc_nonneg (U : unicode_db) (s : text) (acc : Z) :
  (0 <= acc)%Z ->
  (0 <= fold_left
          (fun acc c =>
             (10 * acc
              + match decimal U c with Some d => Z.of_N d | None => 0 end)%Z)
          s acc)%Z.
Proof.
  revert acc; induction s as [|c s IH]; intros acc H; cbn [fold_left];
    [assumption|].
  apply IH. destruct (decimal U c) as [d|]; [pose proof (N2Z.is_nonneg d)|]; lia.
Qed.

(** [int] of a digit text is never negative. *)
Lemma int_of_digits_nonneg (U : unicode_db) (s : text) :
  (0 <= int_of_digits U s)%Z.
Proof. apply int_of_digits_acc_nonneg; lia. Qed.



(** Rounding to the nearest integer stays between the integers around. *)
Lemma round_half_even_between (a b : Z) (x : Q) :
  (inject_Z a <= x)%Q -> (x <= inject_Z b)%Q ->
  (a <= round_half_even x <= b)%Z.
Proof.
  intros Ha Hb.
  assert (Hfa : (a <= Qfloor x)%Z).
  { rewrite <- (Qfloor_Z a). now apply Qfloor_resp_le. }
  assert (Hfb : (Qfloor x <= b)%Z).
  { rewrite <- (Qfloor_Z b). now apply Qfloor_resp_le. }
  assert (Htop : Qfloor x = b -> (x - inject_Z (Qfloor x) <= 0)%Q).
  { intros E. rewrite E. generalize dependent (inject_Z b). intros; lra. }
  unfold round_half_even.
  destruct (Qcompare_spec (x - inject_Z (Qfloor x))%Q (1 # 2)%Q) as [He|Hl|Hg].
  - destruct (Z.even (Qfloor x)); [lia|].
    destruct (Z.eq_dec (Qfloor x) b) as [E|E]; [|lia].
    exfalso. specialize (Htop E).
    generalize dependent (x - inject_Z (Qfloor x))%Q. intros; lra.
  - lia.
  - destruct (Z.eq_dec (Qfloor x) b) as [E|E]; [|lia].
    exfalso. specialize (Htop E).
    generalize dependent (x - inject_Z (Qfloor x))%Q. intros; lra.
Qed.

(** The nearest integer is within one half. *)
Lemma round_half_even_near (x : Q) :
  (x - (1 # 2) <= inject_Z (round_half_even x) <= x + (1 # 2))%Q.
Proof.
  pose proof (Qfloor_le x) as Hl.
  pose proof (Qlt_floor x) as Hu.
  rewrite inject_Z_plus in Hu. change (inject_Z 1) with 1%Q in Hu.
  unfold round_half_even.
  destruct (Qcompare_spec (x - inject_Z (Qfloor x))%Q (1 # 2)%Q) as [He|Hlt|Hgt];
    [destruct (Z.even (Qfloor x))| |];
    rewrite ?inject_Z_plus; change (inject_Z 1) with 1%Q;
    generalize dependent (inject_Z (Qfloor x)); intros; lra.
Qed.

(** [round2 x] is a whole number of hundredths, within half a hundredth of
    [x]. *)
Lemma round2_hundredths (x : Q) :
  (round2 x == inject_Z (round_half_even (x * 100)) / 100
   /\ x - (1 # 200) <= round2 x <= x + (1 # 200))%Q.
Proof.
  split; [reflexivity|].
  pose proof (round_half_even_near (x * 100)%Q) as [Hl Hu].
  unfold round2.
  set (k := inject_Z (round_half_even (x * 100))) in *.
  split.
  - apply Qle_shift_div_l; lra.
  - apply Qle_shift_div_r; lra.
Qed.

(** Rounding to two decimals keeps a value of [0, 100] in [0, 100]. *)
Lemma round2_range (x : Q) :
  (0 <= x <= 100)%Q -> (0 <= round2 x <= 100)%Q.
Proof.
  intros [H0 H1].
  destruct (@round_half_even_between 0 10000 (x * 100)%Q) as [Ha Hb].
  - change (inject_Z 0) with 0%Q; lra.
  - change (inject_Z 10000) with (10000 # 1)%Q; lra.
  - unfold round2. split.
    + apply Qle_shift_div_l; [lra|].
      rewrite Qmult_0_l. change 0%Q with (inject_Z 0).
      now rewrite <- Zle_Qle.
    + apply Qle_shift_div_r; [lra|].
      change (100 * 100)%Q with (inject_Z 10000).
      now rewrite <- Zle_Qle.
Qed.

Lemma total_score_range (s e r d : Q) :
  (0 <= s <= 100 -> 0 <= e <= 100 -> 0 <= r <= 100 -> 0 <= d <= 100 ->
   0 <= total_score s e r d <= 100)%Q.
Proof. unfold total_score; intros; lra. Qed.


(** ** The scorer *)

Section ScorerProperties.
Variable U : unicode_db.
Variable embedding : Type.
Variable encode : text -> embedding.
Variable cos_sim : embedding -> embedding -> Q.

(** The score is the rounded weighted sum of the four sub-scores. *)
Lemma score_resume_final (c : CandidateRecord) (jd_text : text) :
  let jd := _extract_jd_requirements U jd_text in
  fst (score_resume U encode cos_sim c jd_text)
  = round2 (total_score (fst (skill_match encode cos_sim c jd))
                        (fst (experience_match U c jd))
                        (fst (responsibility_match encode cos_sim c jd))
                        (fst (education_match U c jd))).
Proof.
  intros jd. unfold score_resume. fold jd.
  destruct (skill_match encode cos_sim c jd), (experience_match U c jd),
    (responsibility_match encode cos_sim c jd), (education_match U c jd).
  reflexivity.
Qed.

(** The reasoning is the four sentences, in order, joined by single spaces. *)
Lemma score_resume_reasoning (c : CandidateRecord) (jd_text : text) :
  let jd := _extract_jd_requirements U jd_text in
  snd (score_resume U encode cos_sim c jd_text)
  = join (str " ")
      [snd (skill_match encode cos_sim c jd);
       snd (experience_match U c jd);
       snd (responsibility_match encode cos_sim c jd);
       snd (education_match U c jd)].
Proof.
  intros jd. unfold score_resume. fold jd.
  destruct (skill_match encode cos_sim c jd), (experience_match U c jd),
    (responsibility_match encode cos_sim c jd), (education_match U c jd).
  reflexivity.
Qed.


(** C6: when the job requires no skills, the skill sub-score is exactly 100,
    whatever the candidate's skills, and the reasoning says that no skills
    are required. *)
Theorem no_required_skills_scores_100 (c : CandidateRecord) (jd_text : text) :
  jd_skills (_extract_jd_requirements U jd_text) = [] ->
  fst (skill_match encode cos_sim c (_extract_jd_requirements U jd_text)) = 100%Q
  /\ is_substring no_skills_sentence
       (snd (score_resume U encode cos_sim c jd_text)) = true.
Proof.
  intros H.
  assert (E : skill_match encode cos_sim c (_extract_jd_requirements U jd_text)
              = (100%Q, no_skills_sentence))
    by (unfold skill_match; now rewrite H).
  split.
  - now rewrite E.
  - rewrite score_resume_reasoning. apply reasoning_has_sentence.
    left. now rewrite E.
Qed.

(** C7: when the job lists no responsibilities, or the candidate record has
    no raw text, the responsibility sub-score is exactly 50 and the
    reasoning says that responsibilities cannot be assessed. *)
Theorem missing_responsibility_data_scores_50
    (c : CandidateRecord) (jd_text : text) :
  jd_responsibilities (_extract_jd_requirements U jd_text) = []
  \/ raw_text c = [] ->
  fst (responsibility_match encode cos_sim c (_extract_jd_requirements U jd_text))
  = 50%Q
  /\ is_substring cannot_assess_sentence
       (snd (score_resume U encode cos_sim c jd_text)) = true.
Proof.
  intros H.
  assert (E : responsibility_match encode cos_sim c
                (_extract_jd_requirements U jd_text)
              = (50%Q, cannot_assess_sentence)).
  { unfold responsibility_match.
    destruct H as [H|H]; rewrite H; simpl; [reflexivity|].
    now rewrite andb_false_r. }
  split.
  - now rewrite E.
  - rewrite score_resume_reasoning. apply reasoning_has_sentence.
    right; right; left. now rewrite E.
Qed.

(** C4: with no education terms the education sub-score is exactly 100 and
    the reasoning has the sentence "No specific education required in JD.";
    with education terms it is 100 exactly when some term is, lowercased, a
    substring of the lowercased concatenation of the candidate's education
    signals, and 0 otherwise. *)
Theorem education_sub_score_is_binary (c : CandidateRecord) (jd_text : text) :
  let jd := _extract_jd_requirements U jd_text in
  let edu := fst (education_match U c jd) in
  let term_found :=
    existsb (fun term =>
               is_substring (lower U term)
                 (lower U (join (str " ") (education c))))
            (jd_education jd) in
  (jd_education jd = [] ->
   edu = 100%Q
   /\ is_substring no_education_sentence
        (snd (score_resume U encode cos_sim c jd_text)) = true)
  /\ (jd_education jd <> [] ->
      edu = (if term_found then 100%Q else 0%Q)).
Proof.
  intros jd edu term_found. split.
  - intros H.
    assert (E : education_match U c jd = (100%Q, no_education_sentence))
      by (unfold education_match; now rewrite H).
    split.
    + unfold edu. now rewrite E.
    + rewrite score_resume_reasoning. apply reasoning_has_sentence.
      right; right; right. fold jd. now rewrite E.
  - intros H. unfold edu, education_match. fold term_found.
    destruct (jd_education jd) as [|t ts]; [congruence|].
    now destruct term_found.
Qed.

(** The experience sub-score as a function of the two numbers of years. *)
Lemma experience_match_score (c : CandidateRecord) (jd : JobRequirements) :
  let n := experience_years_in_resume U c in
  let m := jd_experience_years jd in
  fst (experience_match U c jd)
  = if (0 <? m)%Z
    then if (m <=? n)%Z then 100%Q
         else (inject_Z n / inject_Z m * 100)%Q
    else 100%Q.
Proof.
  intros n m. unfold experience_match. fold n m.
  destruct (0 <? m)%Z; [|reflexivity].
  now destruct (m <=? n)%Z.
Qed.

Lemma experience_years_in_resume_nonneg (c : CandidateRecord) :
  (0 <= experience_years_in_resume U c)%Z.
Proof.
  unfold experience_years_in_resume.
  destruct (experience c); [lia|].
  destruct (re_search _ _); [apply int_of_digits_nonneg|lia].
Qed.


(** C8: for a fixed minimum m > 0 the experience sub-score does not decrease
    when the candidate's years grow, and it is 100 from m years on. *)
Theorem experience_sub_score_monotone
    (c1 c2 : CandidateRecord) (jd : JobRequirements) :
  (0 < jd_experience_years jd)%Z ->
  ((experience_years_in_resume U c1 <= experience_years_in_resume U c2)%Z ->
   (fst (experience_match U c1 jd) <= fst (experience_match U c2 jd))%Q)
  /\ ((jd_experience_years jd <= experience_years_in_resume U c1)%Z ->
      fst (experience_match U c1 jd) = 100%Q).
Proof.
  intros Hm.
  rewrite !experience_match_score.
  set (m := jd_experience_years jd) in *.
  set (n1 := experience_years_in_resume U c1).
  set (n2 := experience_years_in_resume U c2).
  destruct (Z.ltb_spec 0 m) as [_|]; [|lia].
  assert (Hq : (0 < inject_Z m)%Q).
  { change 0%Q with (inject_Z 0). now rewrite <- Zlt_Qlt. }
  assert (Hdiv : forall a b : Z, (a <= b)%Z ->
            (inject_Z a / inject_Z m * 100 <= inject_Z b / inject_Z m * 100)%Q).
  { intros a b Hab. apply Qmult_le_compat_r; [|discriminate].
    apply Qmult_le_compat_r; [now rewrite <- Zle_Qle|].
    apply Qlt_le_weak, Qinv_lt_0_compat, Hq. }
  assert (Hone : (inject_Z m / inject_Z m * 100 == 100)%Q).
  { field. intros E. rewrite E in Hq. now apply Qlt_irrefl in Hq. }
  split.
  - intros H12.
    destruct (Z.leb_spec m n1), (Z.leb_spec m n2); try lia.
    + apply Qle_refl.
    + rewrite <- Hone at 2. apply Hdiv. lia.
    + now apply Hdiv.
  - intros H. destruct (Z.leb_spec m n1); [reflexivity|lia].
Qed.

End ScorerProperties.

(** ** The vocabulary and the skills of a resume *)

Lemma insert_by_len_In (x y : text) (l : list text) :
  In y (insert_by_len x l) <-> y = x \/ In y l.
Proof.
  induction l as [|z l IH]; simpl.
  - intuition congruence.
  - destruct (length z <=? length x)%nat; simpl; [intuition congruence|].
    rewrite IH. intuition congruence.
Qed.

(** Sorting keeps the entries. *)
Lemma sort_len_desc_In (y : text) (l : list text) :
  In y (sort_len_desc l) <-> In y l.
Proof.
  induction l as [|x l IH]; simpl; [tauto|].
  rewrite insert_by_len_In, IH. intuition congruence.
Qed.

Lemma insert_by_len_sorted (x : text) (l : list text) :
  Sorted longer_first l -> Sorted longer_first (insert_by_len x l).
Proof.
  induction l as [|z l IH]; intros Hs; simpl.
  - repeat constructor.
  - destruct (Nat.leb_spec (length z) (length x)) as [Hzx|Hzx].
    + constructor; [assumption|]. constructor. exact Hzx.
    + apply Sorted_inv in Hs as [Hs Hhd].
      constructor; [now apply IH|].
      destruct l as [|y l]; simpl.
      * constructor. unfold longer_first. lia.
      * apply HdRel_inv in Hhd.
        destruct (length y <=? length x)%nat; constructor;
          unfold longer_first in *; lia.
Qed.

(** The vocabulary is longest first. *)
Lemma sort_len_desc_sorted (l : list text) :
  Sorted longer_first (sort_len_desc l).
Proof.
  induction l as [|x l IH]; simpl; [constructor|].
  now apply insert_by_len_sorted.
Qed.

(** Every vocabulary entry is a stripped, lowercased line of the skills
    file. *)
Lemma KNOWN_SKILLS_from_file (U : unicode_db) (skills_file : option (list text))
    (skill : text) :
  In skill (KNOWN_SKILLS U skills_file) ->
  exists lines line,
    skills_file = Some lines /\ In line lines /\ skill = lower U (strip line).
Proof.
  unfold KNOWN_SKILLS, load_common_skills. rewrite sort_len_desc_In.
  destruct skills_file as [lines|]; [|intros []].
  rewrite nodup_In, in_map_iff. intros (line & <- & Hin).
  now exists lines, line.
Qed.

(** C9: every extracted skill is an entry of the vocabulary and,
    case-insensitively, a substring of the record's raw text. *)
Theorem extracted_skills_from_vocabulary_and_text
    (U : unicode_db) (nlp : text -> list entity)
    (skills_file : option (list text)) (resume_text : text) :
  let r := parse_resume_info U nlp skills_file resume_text in
  raw_text r = resume_text
  /\ Forall (fun skill =>
               In skill (KNOWN_SKILLS U skills_file)
               /\ is_substring (lower U skill) (lower U (raw_text r)) = true)
            (skills r).
Proof.
  intros r. split; [reflexivity|].
  apply Forall_forall. intros skill Hin.
  unfold r, parse_resume_info, extract_skills in Hin. simpl in Hin.
  apply nodup_In, filter_In in Hin. exact Hin.
Qed.

(** ** The matcher *)

Lemma Forall_firstn (X : Type) (P : X -> Prop) (n : nat) (l : list X) :
  Forall P l -> Forall P (firstn n l).
Proof.
  revert n; induction l as [|x l IH]; intros [|n] H; simpl; try constructor.
  - now apply Forall_inv in H.
  - apply IH. now apply Forall_inv_tail in H.
Qed.

Section MatcherProperties.
Variable A : Type.

(** A successful repetition hands a suffix of the text to its
    continuation, with the groups unchanged. *)
Lemma star_cls_inv (g : bool) (p : cp -> bool) (k : cont A) (a : A) :
  forall pre s c,
    star_cls g p pre s c k = Some a ->
    exists pre' l s', s = l ++ s' /\ k pre' s' c = Some a.
Proof.
  intros pre s; revert pre.
  induction s as [|x s IH]; intros pre c H; simpl in H.
  - now exists pre, [], [].
  - destruct (p x); [|now exists pre, [], (x :: s)].
    destruct g.
    + destruct (star_cls true p (x :: pre) s c k) eqn:E.
      * injection H as <-. destruct (IH _ _ E) as (pre' & l & s' & -> & Hk).
        now exists pre', (x :: l), s'.
      * now exists pre, [], (x :: s).
    + destruct (k pre (x :: s) c) eqn:E.
      * injection H as <-. now exists pre, [], (x :: s).
      * destruct (IH _ _ H) as (pre' & l & s' & -> & Hk).
        now exists pre', (x :: l), s'.
Qed.

(** A successful match hands a suffix of the text to its continuation, and
    every group it captured is made of characters of the text. *)
Lemma mt_inv (r : regex) :
  forall pre s c (k : cont A) a,
    mt r pre s c k = Some a ->
    exists pre' l s' c',
      s = l ++ s' /\ k pre' s' c' = Some a
      /\ forall P : cp -> Prop,
           Forall P s -> caps_ok (Forall P) c -> caps_ok (Forall P) c'.
Proof.
  induction r as [|p|r1 IH1 r2 IH2|r1 IH1 r2 IH2|g p|n r1 IH1| | |w];
    intros pre s c k a H; simpl in H.
  - now exists pre, [], s, c.
  - destruct s as [|x s]; [discriminate|].
    destruct (p x); [|discriminate].
    now exists (x :: pre), [x], s, c.
  - apply IH1 in H as (pre1 & l1 & s1 & c1 & -> & H & Hc1).
    apply IH2 in H as (pre2 & l2 & s2 & c2 & -> & H & Hc2).
    exists pre2, (l1 ++ l2), s2, c2. rewrite <- app_assoc.
    repeat split; [assumption|].
    intros P Hs Hc. apply Hc2.
    + now apply Forall_app in Hs.
    + now apply Hc1.
  - destruct (mt r1 pre s c k) eqn:E.
    + injection H as <-. exact (IH1 _ _ _ _ _ E).
    + exact (IH2 _ _ _ _ _ H).
  - apply star_cls_inv in H as (pre' & l & s' & -> & H).
    now exists pre', l, s', c.
  - apply IH1 in H as (pre1 & l1 & s1 & c1 & -> & H & Hc1).
    exists pre1, l1, s1, ((n, firstn (length (l1 ++ s1) - length s1) (l1 ++ s1)) :: c1).
    repeat split; [assumption|].
    intros P Hs Hc. constructor; [|now apply Hc1].
    simpl. now apply Forall_firstn.
  - destruct s; [|discriminate]. now exists pre, [], [], c.
  - destruct s as [|x [|y s]]; [now exists pre, [], [], c| |discriminate].
    destruct (x =? NL)%N; [|discriminate]. now exists pre, [], [x], c.
  - destruct (at_word_boundary w pre s); [|discriminate].
    now exists pre, [], s, c.
Qed.

(** A pattern that cannot do without a character that is not whitespace
    matches nowhere in a blank text. *)
Lemma rejects_blank_mt (r : regex) :
  rejects_blank r ->
  forall pre s c (k : cont A), blank s -> mt r pre s c k = None.
Proof.
  induction r as [|p|r1 IH1 r2 IH2|r1 IH1 r2 IH2|g p|n r1 IH1| | |w];
    simpl; intros Hr pre s c k Hs; try contradiction.
  - destruct s as [|x s]; [reflexivity|].
    apply Forall_inv in Hs. now rewrite (Hr x Hs).
  - destruct Hr as [Hr|Hr]; [now apply IH1|].
    destruct (mt r1 pre s c _) eqn:E; [|reflexivity].
    apply mt_inv in E as (pre1 & l1 & s1 & c1 & -> & E & _).
    rewrite (IH2 Hr) in E; [discriminate|].
    now apply Forall_app in Hs.
  - destruct Hr as [Hr1 Hr2]. now rewrite (IH1 Hr1), (IH2 Hr2).
  - now apply IH1.
Qed.

Lemma star_cls_reads (P : cp -> Prop) (g : bool) (p : cp -> bool)
    (k : cont A) (a : A) :
  (forall c, p c = true -> P c) ->
  forall pre s c,
    star_cls g p pre s c k = Some a ->
    exists pre' l s', s = l ++ s' /\ Forall P l /\ k pre' s' c = Some a.
Proof.
  intros Hp pre s; revert pre.
  induction s as [|x s IH]; intros pre c H; simpl in H.
  - now exists pre, [], [].
  - destruct (p x) eqn:Ex; [|now exists pre, [], (x :: s)].
    destruct g.
    + destruct (star_cls true p (x :: pre) s c k) eqn:E.
      * injection H as <-.
        destruct (IH _ _ E) as (pre' & l & s' & -> & Hl & Hk).
        exists pre', (x :: l), s'. repeat split; [|assumption].
        constructor; [now apply Hp|assumption].
      * now exists pre, [], (x :: s).
    + destruct (k pre (x :: s) c) eqn:E.
      * injection H as <-. now exists pre, [], (x :: s).
      * destruct (IH _ _ H) as (pre' & l & s' & -> & Hl & Hk).
        exists pre', (x :: l), s'. repeat split; [|assumption].
        constructor; [now apply Hp|assumption].
Qed.

Lemma reads_only_and (P1 P2 : cp -> Prop) (r : regex) :
  reads_only P1 r -> reads_only P2 r -> reads_only (fun c => P1 c /\ P2 c) r.
Proof.
  induction r; simpl; intros H1 H2; try exact I;
    try (intros c Hc; split; [now apply H1|now apply H2]).
  - destruct H1, H2. split; [now apply IHr1|now apply IHr2].
  - destruct H1, H2. split; [now apply IHr1|now apply IHr2].
  - now apply IHr.
Qed.

(** A successful match read a prefix of the text made of the characters the
    pattern reads, and captured in each group characters that group reads. *)
Lemma mt_reads (Q : nat -> cp -> Prop) (r : regex) :
  groups_read Q r ->
  forall (P : cp -> Prop), reads_only P r ->
  forall pre s c (k : cont A) a,
    mt r pre s c k = Some a ->
    exists pre' l s' c',
      s = l ++ s' /\ Forall P l /\ k pre' s' c' = Some a
      /\ (caps_by Q c -> caps_by Q c').
Proof.
  induction r as [|p|r1 IH1 r2 IH2|r1 IH1 r2 IH2|g p|n r1 IH1| | |w];
    simpl; intros HQ P HP pre s c k a H.
  - now exists pre, [], s, c.
  - destruct s as [|x s]; [discriminate|].
    destruct (p x) eqn:Ex; [|discriminate].
    exists (x :: pre), [x], s, c. repeat split; [|assumption|trivial].
    constructor; [now apply HP|constructor].
  - destruct HQ as [HQ1 HQ2], HP as [HP1 HP2].
    apply (IH1 HQ1 P HP1) in H as (pre1 & l1 & s1 & c1 & -> & Hl1 & H & Hc1).
    apply (IH2 HQ2 P HP2) in H as (pre2 & l2 & s2 & c2 & -> & Hl2 & H & Hc2).
    exists pre2, (l1 ++ l2), s2, c2. rewrite <- app_assoc.
    repeat split; [now apply Forall_app|assumption|auto].
  - destruct HQ as [HQ1 HQ2], HP as [HP1 HP2].
    destruct (mt r1 pre s c k) eqn:E.
    + injection H as <-. exact (IH1 HQ1 P HP1 _ _ _ _ _ E).
    + exact (IH2 HQ2 P HP2 _ _ _ _ _ H).
  - apply (star_cls_reads P _ _ _ _ HP) in H as (pre' & l & s' & -> & Hl & H).
    now exists pre', l, s', c.
  - destruct HQ as [HQn HQ1].
    apply (IH1 HQ1 _ (reads_only_and _ _ _ HP HQn)) in H
      as (pre1 & l1 & s1 & c1 & -> & Hl1 & H & Hc1).
    exists pre1, l1, s1,
      ((n, firstn (length (l1 ++ s1) - length s1) (l1 ++ s1)) :: c1).
    repeat split; [|assumption|].
    + eapply Forall_impl; [|exact Hl1]. now intros x [Hx _].
    + intros Hc. constructor; [|now apply Hc1].
      simpl. rewrite length_app, Nat.add_sub, firstn_app, firstn_all,
        Nat.sub_diag, app_nil_r.
      eapply Forall_impl; [|exact Hl1]. now intros x [_ Hx].
  - destruct s; [|discriminate]. now exists pre, [], [], c.
  - destruct s as [|x [|y s]]; [now exists pre, [], [], c| |discriminate].
    destruct (x =? NL)%N; [|discriminate]. now exists pre, [], [x], c.
  - destruct (at_word_boundary w pre s); [|discriminate].
    now exists pre, [], s, c.
Qed.

End MatcherProperties.

Lemma rejects_blank_search (r : regex) :
  rejects_blank r ->
  forall pre s, blank s -> search_from r pre s = None.
Proof.
  intros Hr pre s; revert pre.
  induction s as [|x s IH]; intros pre Hs; simpl.
  - unfold match_here. now rewrite rejects_blank_mt.
  - unfold match_here. rewrite rejects_blank_mt by assumption.
    apply IH. now apply Forall_inv_tail in Hs.
Qed.

(** The text and the groups of a match are made of characters of the text
    searched. *)
Lemma search_from_chars (P : cp -> Prop) (r : regex) :
  forall pre s m,
    search_from r pre s = Some m -> Forall P s ->
    Forall P (m_text m) /\ caps_ok (Forall P) (m_caps m).
Proof.
  intros pre s; revert pre.
  induction s as [|x s IH]; intros pre m H Hs; simpl in H.
  - destruct (match_here r pre []) eqn:E; [|discriminate].
    injection H as <-. unfold match_here in E.
    apply mt_inv in E as (pre1 & l1 & s1 & c1 & El & E & Hc).
    injection E as <-. simpl. split; [|apply Hc; [constructor|constructor]].
    destruct (length s1); constructor.
  - destruct (match_here r pre (x :: s)) eqn:E.
    + injection H as <-. unfold match_here in E.
      apply mt_inv in E as (pre1 & l1 & s1 & c1 & El & E & Hc).
      injection E as <-. simpl m_text. simpl m_caps.
      split; [|apply Hc; [assumption|constructor]].
      now apply Forall_firstn.
    + apply (IH _ _ H). now apply Forall_inv_tail in Hs.
Qed.

(** The groups of a match hold the characters their patterns read. *)
Lemma search_from_groups (Q : nat -> cp -> Prop) (r : regex) :
  groups_read Q r ->
  forall pre s m, search_from r pre s = Some m -> caps_by Q (m_caps m).
Proof.
  intros HQ.
  assert (Hany : reads_only (fun _ => True) r)
    by (clear; induction r; simpl; auto).
  assert (Hhere : forall pre s m, match_here r pre s = Some m ->
                                   caps_by Q (m_caps m)).
  { intros pre s m E. unfold match_here in E.
    apply (mt_reads _ Q r HQ _ Hany) in E as (pre1 & l1 & s1 & c1 & _ & _ & E & Hc).
    injection E as <-. apply Hc. constructor. }
  intros pre s; revert pre.
  induction s as [|x s IH]; intros pre m H; simpl in H.
  - destruct (match_here r pre []) eqn:E; [|discriminate].
    injection H as <-. exact (Hhere _ _ _ E).
  - destruct (match_here r pre (x :: s)) eqn:E.
    + injection H as <-. exact (Hhere _ _ _ E).
    + exact (IH _ _ H).
Qed.

Lemma cap_lookup_by (Q : nat -> cp -> Prop) (n : nat) (c : caps) (t : text) :
  caps_by Q c -> cap_lookup n c = Some t -> Forall (Q n) t.
Proof.
  induction c as [|[m u] c IH]; simpl; intros Hc H; [discriminate|].
  destruct (Nat.eqb_spec n m) as [ -> | _ ].
  - injection H as <-. now apply Forall_inv in Hc.
  - apply IH; [now apply Forall_inv_tail in Hc|assumption].
Qed.

(** The group [(\d+)] of the three patterns for years holds decimal digits
    only, so that [int] is defined on it. *)
Lemma years_group_is_digits (U : unicode_db) (r : regex) (s : text) (m : rmatch) :
  r = jd_experience_pattern U \/ r = resume_years_pattern U
  \/ r = years_experience_pattern U ->
  re_search r s = Some m ->
  Forall (fun c => isdigit U c = true) (group_or_empty m 1).
Proof.
  intros Hr H.
  assert (HQ : groups_read (digits_in_group_1 U) r).
  { destruct Hr as [ -> | [ -> | -> ] ]; simpl; unfold digits_in_group_1; tauto. }
  apply (search_from_groups _ _ HQ) in H.
  unfold group_or_empty, group.
  destruct (cap_lookup 1 (m_caps m)) eqn:E; [|constructor].
  exact (cap_lookup_by _ _ _ _ H E).
Qed.

Lemma cap_lookup_ok (P : text -> Prop) (n : nat) (c : caps) (t : text) :
  caps_ok P c -> cap_lookup n c = Some t -> P t.
Proof.
  induction c as [|[m u] c IH]; simpl; intros Hc H; [discriminate|].
  destruct (Nat.eqb n m).
  - injection H as <-. now apply Forall_inv in Hc.
  - apply IH; [now apply Forall_inv_tail in Hc|assumption].
Qed.

Lemma group_or_empty_chars (P : cp -> Prop) (r : regex) (s : text)
    (m : rmatch) (n : nat) :
  re_search r s = Some m -> Forall P s -> Forall P (group_or_empty m n).
Proof.
  intros H Hs. apply (search_from_chars P) in H as [_ Hc]; [|assumption].
  unfold group_or_empty, group.
  destruct (cap_lookup n (m_caps m)) eqn:E; [|constructor].
  exact (cap_lookup_ok _ _ _ _ Hc E).
Qed.

(** ** String operations keep the characters they are given *)

Section CharsKept.
Variable P : cp -> Prop.

Lemma lstrip_chars (s : text) : Forall P s -> Forall P (lstrip s).
Proof.
  induction s as [|x s IH]; simpl; intros H; [constructor|].
  destruct (isspace x); [|assumption].
  apply IH. now apply Forall_inv_tail in H.
Qed.

Lemma strip_chars (s : text) : Forall P s -> Forall P (strip s).
Proof.
  intros H. unfold strip, rstrip.
  apply Forall_rev, lstrip_chars, Forall_rev, lstrip_chars, H.
Qed.

Lemma remove_char_chars (c : cp) (s : text) :
  Forall P s -> Forall P (remove_char c s).
Proof.
  intros H. apply Forall_forall. intros x Hx.
  apply filter_In in Hx as [Hx _]. rewrite Forall_forall in H. now apply H.
Qed.

Lemma split_by_chars (p : cp -> bool) (s : text) :
  Forall P s -> Forall (Forall P) (split_by p s).
Proof.
  induction s as [|x s IH]; simpl; intros H.
  - repeat constructor.
  - pose proof (Forall_inv H) as Hx.
    apply Forall_inv_tail in H. specialize (IH H).
    destruct (p x); [now constructor|].
    destruct (split_by p s) as [|h t]; [repeat constructor; assumption|].
    constructor.
    + constructor; [assumption|now apply Forall_inv in IH].
    + now apply Forall_inv_tail in IH.
Qed.

Lemma section_fragments_chars (captured : text) :
  Forall P captured -> Forall (Forall P) (section_fragments captured).
Proof.
  intros H. unfold section_fragments.
  apply Forall_forall. intros f Hf.
  apply in_map_iff in Hf as (piece & <- & Hpiece).
  apply filter_In in Hpiece as [Hpiece _].
  apply strip_chars.
  revert piece Hpiece. apply Forall_forall.
  apply split_by_chars, strip_chars.
  now repeat apply remove_char_chars.
Qed.

Lemma extract_section_chars (header : regex) (jd_lower : text) :
  Forall P jd_lower -> Forall (Forall P) (extract_section header jd_lower).
Proof.
  intros H. unfold extract_section.
  destruct (re_search _ jd_lower) as [m|] eqn:E; [|constructor].
  apply section_fragments_chars.
  exact (group_or_empty_chars P _ _ _ _ E H).
Qed.

End CharsKept.

(** ** The requirement miner *)

(** Every mined fragment is made of characters of the lowercased job
    description. *)
Lemma mined_fragments_from_lowered_text (U : unicode_db) (jd_text : text) :
  let jd := _extract_jd_requirements U jd_text in
  Forall (Forall (fun x => In x (lower U jd_text)))
         (jd_skills jd ++ jd_responsibilities jd ++ jd_education jd).
Proof.
  intros jd.
  assert (H : Forall (fun x => In x (lower U jd_text)) (lower U jd_text))
    by now apply Forall_forall.
  unfold jd, _extract_jd_requirements.
  cbn [jd_skills jd_responsibilities jd_education].
  apply Forall_app; split; [|apply Forall_app; split];
    now apply extract_section_chars.
Qed.

(** C10: every fragment of the mined requirements (skills, responsibilities,
    education terms) is equal to its own lowercasing, because it is cut out
    of the lowercased job description.  The hypothesis is the stability of
    [str.lower]: a text made of characters that occur in the lowercased job
    description is left unchanged by lowercasing. *)
Theorem mined_fragments_are_lowercase (U : unicode_db) (jd_text : text) :
  (forall s, (forall x, In x s -> In x (lower U jd_text)) -> lower U s = s) ->
  let jd := _extract_jd_requirements U jd_text in
  Forall (fun fragment => lower U fragment = fragment)
         (jd_skills jd ++ jd_responsibilities jd ++ jd_education jd).
Proof.
  intros Hlower jd.
  pose proof (mined_fragments_from_lowered_text U jd_text) as H.
  eapply Forall_impl; [|exact H].
  intros f Hf. apply Hlower. now apply Forall_forall.
Qed.

(** *** The shape of the fragments *)

(** Stripping a blank text leaves nothing. *)
Lemma lstrip_blank (s : text) : blank s -> lstrip s = [].
Proof.
  induction s as [|x s IH]; simpl; intros H; [reflexivity|].
  rewrite (Forall_inv H). apply IH. now apply Forall_inv_tail in H.
Qed.

Lemma strip_blank (s : text) : blank s -> strip s = [].
Proof.
  intros H. unfold strip, rstrip. now rewrite (lstrip_blank s H).
Qed.

Lemma lstrip_head (s : text) :
  match lstrip s with [] => True | x :: _ => isspace x = false end.
Proof.
  induction s as [|x s IH]; simpl; [exact I|].
  destruct (isspace x) eqn:E; [exact IH|exact E].
Qed.

Lemma lstrip_suffix (s : text) : exists a, s = a ++ lstrip s /\ blank a.
Proof.
  induction s as [|x s (a & IH & Ha)]; simpl.
  - exists []. split; [reflexivity|constructor].
  - destruct (isspace x) eqn:E.
    + exists (x :: a). split; [simpl; now rewrite <- IH|now constructor].
    + exists []. split; [reflexivity|constructor].
Qed.

Lemma lstrip_id (s : text) :
  match s with [] => True | x :: _ => isspace x = false end -> lstrip s = s.
Proof. destruct s as [|x s]; simpl; [reflexivity|]. now intros ->. Qed.

(** [strip] leaves no whitespace at the front. *)
Lemma strip_head (s : text) :
  match strip s with [] => True | x :: _ => isspace x = false end.
Proof.
  unfold strip, rstrip.
  pose proof (lstrip_head s) as Hw.
  destruct (lstrip_suffix (rev (lstrip s))) as (a & Ea & _).
  apply (f_equal (@rev cp)) in Ea.
  rewrite rev_involutive, rev_app_distr in Ea.
  destruct (rev (lstrip (rev (lstrip s)))) as [|y u]; [exact I|].
  rewrite Ea in Hw. exact Hw.
Qed.

(** [strip] does nothing to a stripped text. *)
Lemma strip_idempotent (s : text) : strip (strip s) = strip s.
Proof.
  pose proof (strip_head s) as Hh.
  unfold strip at 1. rewrite (lstrip_id _ Hh).
  unfold strip, rstrip. rewrite rev_involutive.
  now rewrite (lstrip_id _ (lstrip_head (rev (lstrip s)))).
Qed.

Lemma split_by_no_separator (p : cp -> bool) (s : text) :
  Forall (Forall (fun c => p c = false)) (split_by p s).
Proof.
  induction s as [|x s IH]; simpl.
  - repeat constructor.
  - destruct (p x) eqn:E; [now repeat constructor|].
    destruct (split_by p s) as [|h t]; [repeat constructor; assumption|].
    constructor.
    + constructor; [assumption|now apply Forall_inv in IH].
    + now apply Forall_inv_tail in IH.
Qed.

Lemma remove_char_absent (c : cp) (s : text) :
  Forall (fun x => x <> c) (remove_char c s).
Proof.
  apply Forall_forall. intros x Hx.
  apply filter_In in Hx as [_ Hx].
  apply negb_true_iff, N.eqb_neq in Hx. exact Hx.
Qed.

(** The fragments of a captured section are not empty, are trimmed, and
    contain none of "*", "-", the bullet U+2022, ",", ";" and the newline. *)
Lemma section_fragments_shape (captured : text) :
  Forall (fun f =>
            f <> [] /\ strip f = f
            /\ Forall (fun c => c <> chr "*" /\ c <> chr "-" /\ c <> BULLET
                               /\ is_fragment_separator c = false) f)
         (section_fragments captured).
Proof.
  unfold section_fragments.
  set (cleaned := remove_char BULLET
                    (remove_char (chr "-") (remove_char (chr "*") captured))).
  assert (Hclean : Forall (fun c => c <> chr "*" /\ c <> chr "-" /\ c <> BULLET)
                          cleaned).
  { unfold cleaned.
    pose proof (remove_char_absent (chr "*") captured) as H1.
    pose proof (remove_char_chars _ (chr "-") _ H1) as H1'.
    pose proof (remove_char_chars _ BULLET _ H1') as H1''.
    pose proof (remove_char_absent (chr "-") (remove_char (chr "*") captured)) as H2.
    pose proof (remove_char_chars _ BULLET _ H2) as H2'.
    pose proof (remove_char_absent BULLET
                  (remove_char (chr "-") (remove_char (chr "*") captured))) as H3.
    rewrite Forall_forall in *. intros x Hx. repeat split; auto. }
  apply Forall_forall. intros f Hf.
  apply in_map_iff in Hf as (piece & <- & Hpiece).
  apply filter_In in Hpiece as [Hpiece Hne].
  split; [|split].
  - destruct (strip piece); [discriminate|discriminate].
  - apply strip_idempotent.
  - pose proof (split_by_no_separator is_fragment_separator (strip cleaned)) as Hs.
    pose proof (split_by_chars _ is_fragment_separator _
                  (strip_chars _ _ Hclean)) as Hc.
    rewrite Forall_forall in Hs, Hc.
    specialize (Hs _ Hpiece). specialize (Hc _ Hpiece).
    apply (strip_chars _ piece) in Hs. apply (strip_chars _ piece) in Hc.
    rewrite Forall_forall in *. intros x Hx.
    destruct (Hc x Hx) as (? & ? & ?). repeat split; auto.
Qed.

(** C3: on a job description that lists its skills one per line the capture
    does not run to the next blank line.  The heading alternative
    [\n[A-Z][a-zA-Z\s]+:] is tried on lowercased text under IGNORECASE, and
    its class [\s] crosses line ends: the lines "java", "sql", "" and
    "education" pass for one heading, the match ends after "education:",
    and only "python" is captured. *)
Theorem section_capture_stops_inside_plain_list :
  re_search (jd_section_pattern skills_header)
            (lower ascii_db jd_one_skill_per_line)
  = Some {| m_text := lines_text ["skills:"; "python"; "java"; "sql"; "";
                                  "education:"]%string;
            m_caps := [(1%nat, str "python")] |}
  /\ jd_skills (_extract_jd_requirements ascii_db jd_one_skill_per_line)
     = [str "python"].
Proof. split; vm_compute; reflexivity. Qed.

(** ** Extraction on empty and blank text *)

Lemma isspace_cases (c : cp) : isspace c = true -> In c whitespace_chars.
Proof.
  unfold isspace, in_range. intros H.
  repeat rewrite ?orb_true_iff, ?andb_true_iff, ?N.leb_le, ?N.eqb_eq in H.
  unfold whitespace_chars, In. lia.
Qed.

(** A character class is disjoint from whitespace when it rejects each of
    the whitespace characters. *)
Lemma cls_rejects_blank (p : cp -> bool) :
  forallb (fun c => negb (p c)) whitespace_chars = true ->
  forall c, isspace c = true -> p c = false.
Proof.
  intros H c Hc. rewrite forallb_forall in H.
  apply negb_true_iff, H, isspace_cases, Hc.
Qed.

Lemma blank_no_substring (x s : text) :
  blank s -> existsb (fun c => negb (isspace c)) x = true ->
  is_substring x s = false.
Proof.
  intros Hs Hx. destruct (is_substring x s) eqn:E; [|reflexivity].
  apply is_substring_true in E as (a & b & ->).
  apply Forall_app in Hs as [_ Hs]. apply Forall_app in Hs as [Hs _].
  apply existsb_exists in Hx as (c & Hin & Hc).
  rewrite Forall_forall in Hs. rewrite (Hs c Hin) in Hc. discriminate.
Qed.

Lemma substring_of_blank (x s : text) :
  blank s -> is_substring x s = true -> blank x.
Proof.
  intros Hs E. apply is_substring_true in E as (a & b & ->).
  apply Forall_app in Hs as [_ Hs]. now apply Forall_app in Hs as [Hs _].
Qed.

Lemma split_by_blank (p : cp -> bool) (s : text) :
  blank s -> Forall blank (split_by p s).
Proof. apply split_by_chars. Qed.

Lemma email_pattern_rejects_blank : rejects_blank email_pattern.
Proof.
  left. left. intros c Hc.
  apply (cls_rejects_blank email_local); [vm_compute; reflexivity|exact Hc].
Qed.

Section BlankText.
Variable U : unicode_db.
Variable nlp : text -> list entity.
Variable skills_file : option (list text).
Variable resume_text : text.
Hypothesis whitespace_not_decimal :
  forall c, isspace c = true -> decimal U c = None.
Hypothesis text_blank : blank resume_text.
Hypothesis lower_text_blank : blank (lower U resume_text).

Lemma isdigit_rejects_blank : forall c, isspace c = true -> isdigit U c = false.
Proof. intros c Hc. unfold isdigit. now rewrite whitespace_not_decimal. Qed.

Lemma phone_pattern_rejects_blank : rejects_blank (phone_pattern U).
Proof. right. right. left. left. exact isdigit_rejects_blank. Qed.

Lemma years_experience_pattern_rejects_blank :
  rejects_blank (years_experience_pattern U).
Proof. left. left. exact isdigit_rejects_blank. Qed.

Lemma name_from_lines_blank : name_from_lines U resume_text = None.
Proof.
  pose proof text_blank as H. unfold name_from_lines.
  assert (E : filter (fun line => nonempty (strip line))
                     (split_by is_nl resume_text) = []).
  { pose proof (split_by_blank is_nl resume_text H) as Hp.
    induction Hp as [|piece l Hpiece _ IH]; simpl; [reflexivity|].
    now rewrite (strip_blank piece Hpiece). }
  now rewrite E.
Qed.

Lemma extract_education_loop_blank (text_lower : text) :
  blank text_lower ->
  extract_education_loop U education_keywords text_lower = [].
Proof.
  intros H. unfold education_keywords, extract_education_loop.
  rewrite !blank_no_substring; trivial.
Qed.

Lemma parse_blank_text :
  let r := parse_resume_info U nlp skills_file resume_text in
  email r = None /\ phone r = None /\ experience r = [] /\ education r = []
  /\ raw_text r = resume_text
  /\ Forall (fun skill => blank (lower U skill)) (skills r)
  /\ (name_from_entities nlp resume_text = None -> name r = None).
Proof.
  intros r. pose proof text_blank as H.
  unfold r, parse_resume_info; simpl.
  repeat split.
  - unfold extract_email, re_search.
    now rewrite (rejects_blank_search _ email_pattern_rejects_blank).
  - unfold extract_phone, re_search.
    now rewrite (rejects_blank_search _ phone_pattern_rejects_blank).
  - unfold extract_experience, re_search.
    rewrite (rejects_blank_search _ years_experience_pattern_rejects_blank);
      [reflexivity|exact lower_text_blank].
  - apply extract_education_loop_blank, lower_text_blank.
  - apply Forall_forall. intros skill Hin.
    apply nodup_In, filter_In in Hin as [_ Hin].
    exact (substring_of_blank _ _ lower_text_blank Hin).
  - intros Hn. unfold extract_name. rewrite Hn.
    apply name_from_lines_blank.
Qed.

End BlankText.

(** C2, as the code has it: extraction has no check of its own.  On an
    empty or blank text [parse_resume_info] returns a record: e-mail and
    phone absent, experience and education signals empty, the raw text kept,
    only blank vocabulary entries as skills, and no name unless the entity
    recogniser reports a person.  The check is the caller's: the endpoint
    raises ValueError for an empty text and hands a blank one to extraction.
    The two hypotheses are facts of Unicode: a whitespace character is not
    a decimal digit, and lowercasing keeps the blank text blank. *)
Theorem extraction_of_blank_text_returns_record
    (U : unicode_db) (nlp : text -> list entity)
    (skills_file : option (list text)) (resume_text : text) :
  (forall c, isspace c = true -> decimal U c = None) ->
  blank resume_text ->
  blank (lower U resume_text) ->
  let r := parse_resume_info U nlp skills_file resume_text in
  (email r = None /\ phone r = None /\ experience r = [] /\ education r = []
   /\ raw_text r = resume_text
   /\ Forall (fun skill => blank (lower U skill)) (skills r)
   /\ (name_from_entities nlp resume_text = None -> name r = None))
  /\ extract_and_parse U nlp skills_file (Some resume_text)
     = match resume_text with
       | [] => Raised (ValueError (str
                 "Could not extract text from resume. File might be empty or unreadable."))
       | _ :: _ => Returned r
       end.
Proof.
  intros Hdec Hblank Hlow r. split.
  - now apply parse_blank_text.
  - unfold extract_and_parse. now destruct resume_text.
Qed.

(** C2, the claim as stated fails: on the empty text, and on a blank one,
    [parse_resume_info] returns the record with absent and empty fields. *)
Lemma parse_resume_info_returns_on_empty_text :
  parse_resume_info ascii_db no_entities sample_skills_file []
  = hollow_record []
  /\ parse_resume_info ascii_db no_entities sample_skills_file blank_sample
     = hollow_record blank_sample.
Proof. split; vm_compute; reflexivity. Qed.

(** ** The ASCII database satisfies the hypotheses on Unicode *)

Lemma lower_ascii_char_idempotent (c : cp) :
  lower_ascii_char (lower_ascii_char c) = lower_ascii_char c.
Proof.
  unfold lower_ascii_char, is_upper_ascii, in_range.
  destruct ((65 <=? c) && (c <=? 90))%N eqn:E; [|now rewrite E].
  apply andb_true_iff in E as [E1 E2].
  apply N.leb_le in E1, E2.
  replace ((c + 32 <=? 90)%N) with false by (symmetry; apply N.leb_gt; lia).
  now rewrite andb_false_r.
Qed.

Lemma ascii_lower_stable (t s : text) :
  (forall x, In x s -> In x (lower ascii_db t)) -> lower ascii_db s = s.
Proof.
  unfold lower; simpl. induction s as [|x s IH]; intros H; simpl; [reflexivity|].
  rewrite IH by (intros y Hy; apply H; now right).
  f_equal. destruct (proj1 (in_map_iff _ _ _) (H x (or_introl eq_refl)))
    as (y & <- & _).
  apply lower_ascii_char_idempotent.
Qed.

Lemma ascii_whitespace_not_decimal (c : cp) :
  isspace c = true -> decimal ascii_db c = None.
Proof.
  intros Hc.
  assert (H : is_digit_ascii c = false)
    by (apply (cls_rejects_blank is_digit_ascii); [vm_compute; reflexivity|exact Hc]).
  simpl. now rewrite H.
Qed.

Lemma ascii_lower_blank (s : text) : blank s -> blank (lower ascii_db s).
Proof.
  unfold lower; simpl. intros H. induction H as [|x s Hx _ IH]; simpl;
    constructor; [|exact IH].
  assert (Hu : is_upper_ascii x = false)
    by (apply (cls_rejects_blank is_upper_ascii); [vm_compute; reflexivity|exact Hx]).
  unfold lower_ascii_char. now rewrite Hu.
Qed.

Lemma blank_sample_is_blank : blank blank_sample.
Proof. repeat constructor. Qed.

(** ** The statements at sample inputs *)


(** C4 at samples: a job without education terms, and one whose term
    "computer science" occurs in the candidate's education signals. *)
Lemma education_sub_score_witness :
  jd_education (_extract_jd_requirements ascii_db jd_without_skills) = []
  /\ fst (education_match ascii_db (sample_candidate "5")
            (_extract_jd_requirements ascii_db jd_without_skills)) = 100%Q
  /\ jd_education (_extract_jd_requirements ascii_db jd_with_education) <> []
  /\ fst (education_match ascii_db (sample_candidate "5")
            (_extract_jd_requirements ascii_db jd_with_education)) = 100%Q.
Proof.
  assert (H0 : jd_education (_extract_jd_requirements ascii_db jd_without_skills)
               = []) by (vm_compute; reflexivity).
  assert (H1 : jd_education (_extract_jd_requirements ascii_db jd_with_education)
               <> []) by (vm_compute; discriminate).
  split; [exact H0|]. split.
  - exact (proj1 (proj1 (education_sub_score_is_binary ascii_db text
                           identity_encoder exact_match_similarity
                           (sample_candidate "5") jd_without_skills) H0)).
  - split; [exact H1|].
    exact (proj2 (education_sub_score_is_binary ascii_db text
                    identity_encoder exact_match_similarity
                    (sample_candidate "5") jd_with_education) H1).
Defined.


(** C6 at a sample: a job description without a skills section. *)
Lemma no_required_skills_witness :
  jd_skills (_extract_jd_requirements ascii_db jd_without_skills) = []
  /\ fst (skill_match identity_encoder exact_match_similarity (hollow_record [])
            (_extract_jd_requirements ascii_db jd_without_skills)) = 100%Q
  /\ is_substring no_skills_sentence
       (snd (score_resume ascii_db identity_encoder exact_match_similarity
                          (hollow_record []) jd_without_skills)) = true.
Proof.
  assert (H : jd_skills (_extract_jd_requirements ascii_db jd_without_skills) = [])
    by (vm_compute; reflexivity).
  split; [exact H|].
  exact (no_required_skills_scores_100 ascii_db text identity_encoder
           exact_match_similarity (hollow_record []) jd_without_skills H).
Defined.

(** C7 at a sample: a job description without responsibilities. *)
Lemma missing_responsibility_data_witness :
  (jd_responsibilities (_extract_jd_requirements ascii_db jd_with_education) = []
   \/ raw_text (sample_candidate "5") = [])
  /\ fst (responsibility_match identity_encoder exact_match_similarity
            (sample_candidate "5")
            (_extract_jd_requirements ascii_db jd_with_education)) = 50%Q
  /\ is_substring cannot_assess_sentence
       (snd (score_resume ascii_db identity_encoder exact_match_similarity
                          (sample_candidate "5") jd_with_education)) = true.
Proof.
  assert (H : jd_responsibilities
                (_extract_jd_requirements ascii_db jd_with_education) = []
              \/ raw_text (sample_candidate "5") = [])
    by (left; vm_compute; reflexivity).
  split; [exact H|].
  exact (missing_responsibility_data_scores_50 ascii_db text identity_encoder
           exact_match_similarity (sample_candidate "5") jd_with_education H).
Defined.

(** C8 at a sample: 2 years and then 5, for a minimum of 3. *)
Lemma experience_monotone_witness :
  let jd := _extract_jd_requirements ascii_db jd_without_skills in
  (0 < jd_experience_years jd)%Z
  /\ (experience_years_in_resume ascii_db (sample_candidate "2")
      <= experience_years_in_resume ascii_db (sample_candidate "5"))%Z
  /\ (fst (experience_match ascii_db (sample_candidate "2") jd)
      <= fst (experience_match ascii_db (sample_candidate "5") jd))%Q.
Proof.
  intros jd.
  assert (Hm : (0 < jd_experience_years jd)%Z) by (vm_compute; reflexivity).
  assert (Hn : (experience_years_in_resume ascii_db (sample_candidate "2")
                <= experience_years_in_resume ascii_db (sample_candidate "5"))%Z)
    by (vm_compute; discriminate).
  split; [exact Hm|]. split; [exact Hn|].
  exact (proj1 (experience_sub_score_monotone ascii_db (sample_candidate "2")
                  (sample_candidate "5") jd Hm) Hn).
Defined.

(** C10 at a sample, with the ASCII database. *)
Lemma mined_fragments_witness :
  (forall s, (forall x, In x s -> In x (lower ascii_db jd_with_education)) ->
             lower ascii_db s = s)
  /\ Forall (fun fragment => lower ascii_db fragment = fragment)
       (jd_skills (_extract_jd_requirements ascii_db jd_with_education)
        ++ jd_responsibilities (_extract_jd_requirements ascii_db jd_with_education)
        ++ jd_education (_extract_jd_requirements ascii_db jd_with_education)).
Proof.
  split; [exact (ascii_lower_stable jd_with_education)|].
  exact (mined_fragments_are_lowercase ascii_db jd_with_education
           (ascii_lower_stable jd_with_education)).
Defined.

(** C2, as the code has it, at a sample: a blank text that is not empty. *)
Lemma extraction_of_blank_text_witness :
  (forall c, isspace c = true -> decimal ascii_db c = None)
  /\ blank blank_sample
  /\ blank (lower ascii_db blank_sample)
  /\ extract_and_parse ascii_db no_entities sample_skills_file (Some blank_sample)
     = Returned (parse_resume_info ascii_db no_entities sample_skills_file
                   blank_sample).
Proof.
  split; [exact ascii_whitespace_not_decimal|].
  split; [exact blank_sample_is_blank|].
  split; [exact (ascii_lower_blank _ blank_sample_is_blank)|].
  exact (proj2 (extraction_of_blank_text_returns_record ascii_db no_entities
                  sample_skills_file blank_sample ascii_whitespace_not_decimal
                  blank_sample_is_blank
                  (ascii_lower_blank _ blank_sample_is_blank))).
Defined.

(** ** The sample runs of the source *)

(** The requirements mined from the job description of scoring_logic.py.
    The header "skills" is found inside the last bullet, and the
    qualifications section runs to the blank line. *)
Example dummy_jd_requirements :
  _extract_jd_requirements ascii_db dummy_jd
  = {| jd_skills := [str "in python"; str "aws"; str "sql";
                     str "machine learning."];
       jd_responsibilities :=
         [str "design and implement microservices using python.";
          str "develop and deploy machine learning models.";
          str "collaborate with product and design teams.";
          str "mentor junior engineers."];
       jd_experience_years := 5;
       jd_education :=
         [str "bachelor's degree in computer science or related field.";
          str "5+ years of experience in software development.";
          str "strong skills in python"; str "aws"; str "sql";
          str "machine learning."] |}.
Proof. vm_compute. reflexivity. Qed.

(** The record extracted from the resume of resume_parser.py, with a
    recogniser that finds no entity and a three-entry vocabulary. *)
Example dummy_resume_record :
  parse_resume_info ascii_db no_entities sample_skills_file dummy_resume
  = {| name := Some (str "John Doe");
       email := Some (str "john.doe@example.com");
       phone := Some (str "919876543210");
       skills := [str "machine learning"; str "python"; str "sql"];
       experience := [str "5 years experience"];
       education :=
         [str "University: tech in computer science" ++ [NL]
            ++ str "xyz university";
          str "Year: 2014"];
       raw_text := dummy_resume |}.
Proof. vm_compute. reflexivity. Qed.

(** One required skill out of two matched: the skill sub-score is 50. *)
Example one_of_two_skills_matched :
  let r := skill_match identity_encoder exact_match_similarity
             (sample_candidate "5")
             (_extract_jd_requirements ascii_db jd_with_education) in
  (fst r == 50)%Q /\ snd r = str "Matched 1/2 key skills (50%).".
Proof. split; vm_compute; reflexivity. Qed.

(** "5 years" against "3+ years of experience": the experience sub-score
    is 100. *)
Example five_years_meet_three :
  experience_match ascii_db (sample_candidate "5")
    (_extract_jd_requirements ascii_db jd_without_skills)
  = (100%Q, str "Meets/Exceeds 3 years experience (5 years found).").
Proof. vm_compute. reflexivity. Qed.

(** A first line with "@" is not taken for a name; with no other line the
    name stays absent. *)
Example email_line_is_no_name :
  name (parse_resume_info ascii_db no_entities sample_skills_file
          (str "john.doe@example.com")) = None.
Proof. vm_compute. reflexivity. Qed.

(** The whole score at a sample: 0.4*100 + 0.3*(2/3*100) + 0.2*25 + 0.1*100
    = 75. *)
Example score_at_sample :
  let r := score_resume ascii_db identity_encoder exact_match_similarity
             (sample_candidate "2") jd_without_skills in
  (fst r == 75)%Q
  /\ snd r
     = str "No specific skills required in JD. Has 2 years experience (requires 3). Overall resume content aligns with responsibilities (25%). No specific education required in JD.".
Proof. split; vm_compute; reflexivity. Qed.

(* ------------------------------------------------------------------ *)
(** * Further properties of the code *)

(** ** The matcher finds only what the pattern describes *)

Section MatcherSoundness.
Variable A : Type.

Lemma star_cls_sound (g : bool) (p : cp -> bool) (k : cont A) (a : A) :
  forall pre s c,
    star_cls g p pre s c k = Some a ->
    exists l s',
      s = l ++ s' /\ Forall (fun x => p x = true) l
      /\ k (rev l ++ pre) s' c = Some a.
Proof.
  intros pre s; revert pre.
  induction s as [|x s IH]; intros pre c H; cbn [star_cls] in H.
  - now exists [], [].
  - destruct (p x) eqn:Ex; [|now exists [], (x :: s)].
    assert (Hmore : star_cls g p (x :: pre) s c k = Some a ->
              exists l s', x :: s = l ++ s'
                /\ Forall (fun x => p x = true) l
                /\ k (rev l ++ pre) s' c = Some a).
    { intros E. destruct (IH _ _ E) as (l & s' & -> & Hl & Hk).
      exists (x :: l), s'. repeat split; [now constructor|].
      cbn [rev]. now rewrite <- app_assoc. }
    destruct g.
    + destruct (star_cls true p (x :: pre) s c k) eqn:E.
      * injection H as <-. now apply Hmore.
      * now exists [], (x :: s).
    + destruct (k pre (x :: s) c) eqn:E.
      * injection H as <-. now exists [], (x :: s).
      * now apply Hmore.
Qed.

Lemma firstn_consumed (l s' : text) :
  firstn (length (l ++ s') - length s') (l ++ s') = l.
Proof.
  rewrite length_app, Nat.add_sub, firstn_app, firstn_all, Nat.sub_diag.
  cbn [firstn]. apply app_nil_r.
Qed.

(** Soundness of the matcher: a successful match read a text the pattern
    matches and handed the rest, with the groups of that match, to the
    continuation. *)
Lemma mt_sound (r : regex) :
  forall pre s c (k : cont A) a,
    mt r pre s c k = Some a ->
    exists l s' cs,
      s = l ++ s' /\ den r pre l s' cs
      /\ k (rev l ++ pre) s' (cs ++ c) = Some a.
Proof.
  induction r as [|p|r1 IH1 r2 IH2|r1 IH1 r2 IH2|g p|n r1 IH1| | |w];
    intros pre s c k a H; cbn [mt] in H; cbn [den].
  - exists [], s, []. now repeat split.
  - destruct s as [|x s]; [discriminate|].
    destruct (p x) eqn:Ex; [|discriminate].
    exists [x], s, []. repeat split; [|assumption]. now exists x.
  - apply IH1 in H as (l1 & s1 & cs1 & -> & H1 & H).
    apply IH2 in H as (l2 & s2 & cs2 & -> & H2 & H).
    exists (l1 ++ l2), s2, (cs2 ++ cs1).
    rewrite <- !app_assoc, rev_app_distr, <- app_assoc.
    repeat split; [|assumption].
    now exists l1, l2, cs1, cs2.
  - destruct (mt r1 pre s c k) eqn:E.
    + injection H as <-.
      destruct (IH1 _ _ _ _ _ E) as (l & s' & cs & -> & Hd & Hk).
      exists l, s', cs. now repeat split; [left|].
    + destruct (IH2 _ _ _ _ _ H) as (l & s' & cs & -> & Hd & Hk).
      exists l, s', cs. now repeat split; [right|].
  - apply star_cls_sound in H as (l & s' & -> & Hl & H).
    exists l, s', []. now repeat split.
  - apply IH1 in H as (l & s' & cs1 & -> & H1 & H).
    rewrite firstn_consumed in H.
    exists l, s', ((n, l) :: cs1). repeat split; [|assumption].
    now exists cs1.
  - destruct s; [|discriminate]. exists [], [], []. now repeat split.
  - destruct s as [|x [|y s]]; [| |discriminate].
    + exists [], [], []. repeat split; [now left|assumption].
    + destruct (N.eqb_spec x NL) as [->|]; [|discriminate].
      exists [], [NL], []. repeat split; [now right|assumption].
  - destruct (at_word_boundary w pre s) eqn:E; [|discriminate].
    exists [], s, []. now repeat split.
Qed.

End MatcherSoundness.

(** A match found by [re.search] is a part of the text that the pattern
    matches, with the groups of that match. *)
Lemma search_from_sound (r : regex) :
  forall pre s m,
    search_from r pre s = Some m ->
    exists a b,
      s = a ++ m_text m ++ b
      /\ den r (rev a ++ pre) (m_text m) b (m_caps m).
Proof.
  assert (Hhere : forall pre s m, match_here r pre s = Some m ->
            exists b, s = m_text m ++ b /\ den r pre (m_text m) b (m_caps m)).
  { intros pre s m E. unfold match_here in E.
    apply mt_sound in E as (l & s' & cs & -> & Hd & E).
    injection E as <-. cbn [m_text m_caps].
    rewrite firstn_consumed, app_nil_r. now exists s'. }
  intros pre s; revert pre.
  induction s as [|x s IH]; intros pre m H; cbn [search_from] in H.
  - destruct (match_here r pre []) eqn:E; [|discriminate].
    injection H as <-. destruct (Hhere _ _ _ E) as (b & Hb & Hd).
    now exists [], b.
  - destruct (match_here r pre (x :: s)) eqn:E.
    + injection H as <-. destruct (Hhere _ _ _ E) as (b & Hb & Hd).
      now exists [], b.
    + destruct (IH _ _ H) as (a & b & -> & Hd).
      exists (x :: a), b. split; [reflexivity|].
      cbn [rev]. now rewrite <- app_assoc.
Qed.

Lemma re_search_sound (r : regex) (s : text) (m : rmatch) :
  re_search r s = Some m ->
  exists a b,
    s = a ++ m_text m ++ b /\ den r (rev a) (m_text m) b (m_caps m).
Proof.
  intros H. apply search_from_sound in H as (a & b & Hs & Hd).
  rewrite app_nil_r in Hd. now exists a, b.
Qed.

(** The shapes of the pattern constructions. *)
Lemma den_plus (p : cp -> bool) (pre l post : text) (cs : caps) :
  den (plus p) pre l post cs ->
  l <> [] /\ Forall (fun x => p x = true) l /\ cs = [].
Proof.
  cbn. intros (l1 & l2 & cs1 & cs2 & -> & -> & (x & -> & Hx & ->) & Hl & ->).
  repeat split; [discriminate|now constructor].
Qed.

Lemma den_times (n : nat) (p : cp -> bool) :
  forall pre l post cs,
    den (times n p) pre l post cs ->
    length l = n /\ Forall (fun x => p x = true) l /\ cs = [].
Proof.
  induction n as [|n IH]; cbn [times den]; intros pre l post cs H.
  - destruct H as [-> ->]. now repeat split.
  - destruct H as (l1 & l2 & cs1 & cs2 & -> & -> & (x & -> & Hx & ->) & H).
    apply IH in H as (Hn & Hl & ->).
    repeat split; [cbn; now rewrite Hn|now constructor].
Qed.

Lemma den_upto (n : nat) (p : cp -> bool) :
  forall pre l post cs,
    den (upto n p) pre l post cs ->
    (length l <= n)%nat /\ Forall (fun x => p x = true) l /\ cs = [].
Proof.
  induction n as [|n IH]; cbn [upto opt den]; intros pre l post cs H.
  - destruct H as [-> ->]. now repeat split.
  - destruct H as [(l1 & l2 & cs1 & cs2 & -> & -> & (x & -> & Hx & ->) & H)
                  |[-> ->]].
    + apply IH in H as (Hn & Hl & ->).
      repeat split; [cbn; lia|now constructor].
    + repeat split; [cbn; lia|constructor].
Qed.

Lemma den_lit (a : ascii) (pre l post : text) (cs : caps) :
  den (lit a) pre l post cs -> l = [chr a] /\ cs = [].
Proof.
  cbn. intros (x & -> & Hx & ->). unfold is_char in Hx.
  apply N.eqb_eq in Hx. now subst.
Qed.

Lemma den_no_group (r : regex) :
  has_no_group r = true ->
  forall pre l post cs, den r pre l post cs -> cs = [].
Proof.
  induction r as [|p|r1 IH1 r2 IH2|r1 IH1 r2 IH2|g p|n r1 IH1| | |w];
    cbn [has_no_group den]; intros Hg pre l post cs H;
    try discriminate; try tauto.
  - now destruct H as (x & _ & _ & ->).
  - apply andb_true_iff in Hg as [Hg1 Hg2].
    destruct H as (l1 & l2 & cs1 & cs2 & -> & -> & H1 & H2).
    now rewrite (IH1 Hg1 _ _ _ _ H1), (IH2 Hg2 _ _ _ _ H2).
  - apply andb_true_iff in Hg as [Hg1 Hg2].
    destruct H as [H|H]; [exact (IH1 Hg1 _ _ _ _ H)|exact (IH2 Hg2 _ _ _ _ H)].
Qed.

(** A text a pattern matches is made of characters the pattern reads. *)
Lemma den_reads (P : cp -> Prop) (r : regex) :
  reads_only P r ->
  forall pre l post cs, den r pre l post cs -> Forall P l.
Proof.
  induction r as [|p|r1 IH1 r2 IH2|r1 IH1 r2 IH2|g p|n r1 IH1| | |w];
    cbn [reads_only den]; intros HP pre l post cs H.
  - destruct H as [-> _]. constructor.
  - destruct H as (x & -> & Hx & _). constructor; [now apply HP|constructor].
  - destruct HP as [HP1 HP2].
    destruct H as (l1 & l2 & cs1 & cs2 & -> & _ & H1 & H2).
    apply Forall_app. split; [exact (IH1 HP1 _ _ _ _ H1)|exact (IH2 HP2 _ _ _ _ H2)].
  - destruct HP as [HP1 HP2].
    destruct H as [H|H]; [exact (IH1 HP1 _ _ _ _ H)|exact (IH2 HP2 _ _ _ _ H)].
  - destruct H as [H _]. eapply Forall_impl; [|exact H]. exact HP.
  - destruct H as (cs1 & H & _). exact (IH1 HP _ _ _ _ H).
  - destruct H as [-> _]. constructor.
  - destruct H as [-> _]. constructor.
  - destruct H as [-> _]. constructor.
Qed.

(** ** resume_parser.py: the vocabulary *)

Lemma insert_by_len_NoDup (x : text) (l : list text) :
  ~ In x l -> NoDup l -> NoDup (insert_by_len x l).
Proof.
  induction l as [|y l IH]; cbn [insert_by_len]; intros Hx Hl.
  - constructor; [exact Hx|constructor].
  - destruct (length y <=? length x)%nat; [now constructor|].
    apply NoDup_cons_iff in Hl as [Hy Hl].
    constructor.
    + rewrite insert_by_len_In. intros [->|H]; [apply Hx; now left|now apply Hy].
    + apply IH; [intros H; apply Hx; now right|exact Hl].
Qed.

Lemma sort_len_desc_NoDup (l : list text) :
  NoDup l -> NoDup (sort_len_desc l).
Proof.
  induction l as [|x l IH]; cbn [sort_len_desc fold_right]; intros H;
    [constructor|].
  apply NoDup_cons_iff in H as [Hx Hl].
  apply insert_by_len_NoDup; [|now apply IH].
  fold (sort_len_desc l). now rewrite sort_len_desc_In.
Qed.

(** X1: the vocabulary holds each stripped, lowercased line of the skills
    file exactly once, longest phrases first; with the file missing it is
    empty, and then no resume has any skill. *)
Theorem vocabulary_sorted_and_unique
    (U : unicode_db) (nlp : text -> list entity)
    (skills_file : option (list text)) :
  Sorted longer_first (KNOWN_SKILLS U skills_file)
  /\ NoDup (KNOWN_SKILLS U skills_file)
  /\ (forall skill,
        In skill (KNOWN_SKILLS U skills_file) <->
        exists lines line,
          skills_file = Some lines /\ In line lines
          /\ skill = lower U (strip line))
  /\ (skills_file = None ->
      forall resume_text,
        skills (parse_resume_info U nlp skills_file resume_text) = []).
Proof.
  split; [apply sort_len_desc_sorted|]. split; [|split].
  - apply sort_len_desc_NoDup. unfold load_common_skills.
    destruct skills_file; [apply NoDup_nodup|constructor].
  - intros skill. split; [apply KNOWN_SKILLS_from_file|].
    intros (lines & line & -> & Hin & ->).
    unfold KNOWN_SKILLS, load_common_skills.
    rewrite sort_len_desc_In, nodup_In. apply in_map_iff. now exists line.
  - intros -> resume_text. reflexivity.
Qed.

(** X2: the skills of a resume are exactly the vocabulary entries whose
    lowercase occurs in the lowercased text, each once: a shorter entry is
    kept beside a longer one that contains it. *)
Theorem extracted_skills_are_all_vocabulary_hits
    (U : unicode_db) (nlp : text -> list entity)
    (skills_file : option (list text)) (resume_text : text) :
  let r := parse_resume_info U nlp skills_file resume_text in
  NoDup (skills r)
  /\ forall skill,
       In skill (skills r) <->
       In skill (KNOWN_SKILLS U skills_file)
       /\ is_substring (lower U skill) (lower U resume_text) = true.
Proof.
  intros r. unfold r, parse_resume_info, extract_skills; cbn [skills].
  split; [apply NoDup_nodup|].
  intros skill. now rewrite nodup_In, filter_In.
Qed.

(** ** resume_parser.py: the name *)



(** ** resume_parser.py: e-mail and phone *)

(** X4: an extracted e-mail address stands in the text as it is, and it is
    a local part, "@", a domain, "." and at least two ASCII letters, with
    the local part and the domain not empty and made of the characters of
    their classes. *)
Theorem extracted_email_shape
    (U : unicode_db) (nlp : text -> list entity)
    (skills_file : option (list text)) (resume_text e : text) :
  email (parse_resume_info U nlp skills_file resume_text) = Some e ->
  (exists a b, resume_text = a ++ e ++ b)
  /\ exists local_part domain tld,
       e = local_part ++ [chr "@"] ++ domain ++ [chr "."] ++ tld
       /\ local_part <> []
       /\ Forall (fun c => email_local c = true) local_part
       /\ domain <> []
       /\ Forall (fun c => email_domain c = true) domain
       /\ (2 <= length tld)%nat
       /\ Forall (fun c => is_letter_ascii c = true) tld.
Proof.
  cbn [parse_resume_info email]. unfold extract_email.
  destruct (re_search email_pattern resume_text) as [m|] eqn:E;
    [|discriminate].
  cbn [option_map]. intros [= <-].
  apply re_search_sound in E as (a & b & Hs & Hd).
  split; [now exists a, b|].
  unfold email_pattern, seqs in Hd. cbn [fold_right den] in Hd.
  destruct Hd as (l1 & r1 & c1 & c1' & -> & _ & H1 & Hd).
  destruct Hd as (l2 & r2 & c2 & c2' & -> & _ & H2 & Hd).
  destruct Hd as (l3 & r3 & c3 & c3' & -> & _ & H3 & Hd).
  destruct Hd as (l4 & r4 & c4 & c4' & -> & _ & H4 & Hd).
  destruct Hd as (l5 & r5 & c5 & c5' & -> & _ & (x5 & -> & Hx5 & _) & Hd).
  destruct Hd as (l6 & r6 & c6 & c6' & -> & _ & (x6 & -> & Hx6 & _) & Hd).
  destruct Hd as (l7 & r7 & c7 & c7' & -> & _ & (H7 & _) & (-> & _)).
  apply den_plus in H1 as (Hn1 & Hl1 & _).
  apply den_lit in H2 as (-> & _).
  apply den_plus in H3 as (Hn3 & Hl3 & _).
  apply den_lit in H4 as (-> & _).
  exists l1, l3, ([x5] ++ [x6] ++ l7 ++ []).
  repeat split; try assumption.
  - cbn; lia.
  - rewrite app_nil_r. now repeat constructor.
Qed.

Lemma den_star (g : bool) (p : cp -> bool) (pre l post : text) (cs : caps) :
  den (Star g p) pre l post cs -> cs = [].
Proof. now intros [_ ->]. Qed.

(** X5: an extracted phone number is made of decimal digits only: an
    optional country code of one to three digits, the ten digits of the
    three core groups, and the digits of an optional extension. *)
Theorem extracted_phone_shape
    (U : unicode_db) (nlp : text -> list entity)
    (skills_file : option (list text)) (resume_text p : text) :
  phone (parse_resume_info U nlp skills_file resume_text) = Some p ->
  exists country core extension,
    p = country ++ core ++ extension
    /\ (length country <= 3)%nat /\ length core = 10%nat
    /\ Forall (fun c => isdigit U c = true) p.
Proof.
  cbn [parse_resume_info phone]. unfold extract_phone.
  destruct (re_search (phone_pattern U) resume_text) as [m|] eqn:E;
    [|discriminate].
  cbn [option_map]. intros [= Hphone].
  apply re_search_sound in E as (a & b & _ & Hd).
  unfold group_or_empty, group in Hphone. destruct m as [mt mc].
  cbn [m_text m_caps] in Hd, Hphone.
  unfold phone_pattern, seqs in Hd. cbn [fold_right] in Hd.
  cbn [den] in Hd.
  destruct Hd as (l1 & r1 & c1 & c1' & _ & -> & H1 & Hd).
  destruct Hd as (l2 & r2 & c2 & c2' & _ & -> & H2 & Hd).
  destruct Hd as (l3 & r3 & c3 & c3' & _ & -> & (c3i & H3 & ->) & Hd).
  destruct Hd as (l4 & r4 & c4 & c4' & _ & -> & H4 & Hd).
  destruct Hd as (l5 & r5 & c5 & c5' & _ & -> & (c5i & H5 & ->) & Hd).
  destruct Hd as (l6 & r6 & c6 & c6' & _ & -> & H6 & Hd).
  destruct Hd as (l7 & r7 & c7 & c7' & _ & -> & (c7i & H7 & ->) & Hd).
  destruct Hd as (l8 & r8 & c8 & c8' & _ & -> & H8 & (_ & ->)).
  destruct H2 as [_ ->], H4 as [_ ->], H6 as [_ ->].
  apply den_times in H3 as (Hn3 & Hd3 & ->).
  apply den_times in H5 as (Hn5 & Hd5 & ->).
  apply den_times in H7 as (Hn7 & Hd7 & ->).
  (* the country code *)
  assert (Hc : exists g1, (length g1 <= 3)%nat
                 /\ Forall (fun c => isdigit U c = true) g1
                 /\ (c1 = [] /\ g1 = [] \/ c1 = [(1%nat, g1)])).
  { unfold opt in H1. cbn [den] in H1.
    destruct H1 as [(la & lb & ca & cb & _ & -> & Ha & (cbi & Hb & ->))|[_ ->]].
    - destruct Hb as (lc & ld & cc & cd & -> & -> & (x & -> & Hx & ->) & Hu).
      apply den_upto in Hu as (Hn & Hl & ->).
      assert (ca = []) as ->.
      { destruct Ha as [Ha|[_ ->]]; [|reflexivity].
        now apply den_lit in Ha. }
      exists ([x] ++ ld). repeat split; [cbn; lia|now constructor|now right].
    - exists []. repeat split; [cbn; lia|constructor|now left]. }
  destruct Hc as (g1 & Hn1 & Hd1 & Hc1).
  (* the extension *)
  assert (He : exists g5, Forall (fun c => isdigit U c = true) g5
                 /\ (c8 = [] /\ g5 = [] \/ c8 = [(5%nat, g5)])).
  { unfold opt in H8. cbn [den] in H8.
    destruct H8 as [(la & lb & ca & cb & _ & -> & [_ ->] & Hb)|[_ ->]].
    - destruct Hb as (lc & ld & cc & cd & _ & -> & Hx & Hb).
      apply den_lit in Hx as (_ & ->).
      destruct Hb as (le & lf & ce & cf & _ & -> & (cei & Hp & ->) & (_ & ->)).
      apply den_plus in Hp as (_ & Hl & ->).
      exists le. split; [assumption|now right].
    - exists []. split; [constructor|now left]. }
  destruct He as (g5 & Hd5' & Hc8).
  assert (Hp' : p = g1 ++ (l3 ++ l5 ++ l7) ++ g5).
  { rewrite <- Hphone.
    destruct Hc1 as [[-> ->]| ->], Hc8 as [[-> ->]| ->]; cbn;
      now rewrite ?app_nil_r, <- ?app_assoc. }
  exists g1, (l3 ++ l5 ++ l7), g5. rewrite Hp'.
  repeat split; [assumption|rewrite !length_app; lia|].
  repeat (apply Forall_app; split); assumption.
Qed.

(** ** resume_parser.py and scoring_logic.py: the years of experience *)





(** ** resume_parser.py: the education signals *)

Lemma den_lits_list (l0 : list ascii) :
  forall pre l post cs,
    den (seqs (map lit l0)) pre l post cs ->
    l = map N_of_ascii l0 /\ cs = [].
Proof.
  induction l0 as [|a l0 IH]; cbn [map seqs fold_right den];
    intros pre l post cs H.
  - exact H.
  - destruct H as (l1 & l2 & c1 & c2 & -> & -> & H1 & H2).
    apply den_lit in H1 as (-> & ->).
    apply IH in H2 as (-> & ->). now split.
Qed.

Lemma den_lits (s : string) (pre l post : text) (cs : caps) :
  den (lits s) pre l post cs -> l = str s /\ cs = [].
Proof. apply den_lits_list. Qed.

(** A pattern without group in front of another adds no group. *)
Lemma den_seq_no_group (r1 r2 : regex) (pre l post : text) (cs : caps) :
  has_no_group r1 = true ->
  den (Seq r1 r2) pre l post cs ->
  exists l1 l2, l = l1 ++ l2 /\ den r2 (rev l1 ++ pre) l2 post cs.
Proof.
  intros Hg (l1 & l2 & c1 & c2 & -> & -> & H1 & H2).
  rewrite (den_no_group _ Hg _ _ _ _ H1), app_nil_r.
  now exists l1, l2.
Qed.

Ltac peel_no_group H :=
  match type of H with
  | den (seqs (?r :: ?rest)) _ _ _ _ =>
      change (seqs (r :: rest)) with (Seq r (seqs rest)) in H;
      apply den_seq_no_group in H; [|reflexivity];
      destruct H as (? & ? & _ & H)
  end.

(** Under IGNORECASE a letter of the pattern reads a letter. *)
Lemma is_char_ci_letter (a : ascii) (c : cp) :
  is_letter_ascii (chr a) = true ->
  is_char_ci a c = true -> is_letter_ci c = true.
Proof.
  unfold is_char_ci, is_letter_ci, is_letter_ascii, lower_ascii_char,
    is_lower_ascii, is_upper_ascii, ci_extra, in_range.
  generalize (chr a). intros x Hx.
  destruct ((65 <=? x) && (x <=? 90))%N eqn:Eu.
  - apply andb_true_iff in Eu as [E1 E2]. apply N.leb_le in E1, E2.
    replace ((97 <=? x + 32) && (x + 32 <=? 122))%N with true
      by (symmetry; apply andb_true_iff; split; apply N.leb_le; lia).
    intros H.
    repeat rewrite ?orb_true_iff, ?andb_true_iff, ?N.leb_le, ?N.eqb_eq in *.
    lia.
  - rewrite orb_false_l in Hx. rewrite Hx.
    apply andb_true_iff in Hx as [E1 E2]. apply N.leb_le in E1, E2.
    intros H.
    repeat rewrite ?orb_true_iff, ?andb_true_iff, ?N.leb_le, ?N.eqb_eq in *.
    lia.
Qed.

Lemma ilits_reads_letters (l0 : list ascii) :
  Forall (fun a => is_letter_ascii (chr a) = true) l0 ->
  reads_only (fun c => letter_or_space c = true) (seqs (map ilit l0)).
Proof.
  induction 1 as [|a l0 Ha _ IH]; cbn [map seqs fold_right reads_only];
    [exact I|].
  split; [|exact IH].
  intros c Hc. unfold letter_or_space.
  now rewrite (is_char_ci_letter a c Ha Hc).
Qed.

Lemma university_names_read_letters :
  reads_only (fun c => letter_or_space c = true)
    (seqs [plus letter_or_space;
           Alt (ilits "university") (Alt (ilits "institute") (ilits "college"))]).
Proof.
  set (P := fun c : cp => letter_or_space c = true).
  assert (Hi : forall s,
            Forall (fun a => is_letter_ascii (chr a) = true)
                   (list_ascii_of_string s) ->
            reads_only P (ilits s))
    by (intros s; apply ilits_reads_letters).
  change (((forall c, letter_or_space c = true -> P c)
           /\ (forall c, letter_or_space c = true -> P c))
          /\ (reads_only P (ilits "university")
              /\ reads_only P (ilits "institute")
              /\ reads_only P (ilits "college"))
          /\ True).
  split; [split; auto|].
  split; [|exact I].
  split; [|split]; apply Hi; repeat constructor.
Qed.

Lemma trimmed_words_of (g : text) :
  Forall (fun c => letter_or_space c = true) g -> is_trimmed_words (strip g).
Proof.
  intros H. split; [apply strip_idempotent|now apply strip_chars].
Qed.

Lemma degree_group_is_words (section_text : text) (m : rmatch) :
  re_search degree_pattern section_text = Some m ->
  Forall (fun c => letter_or_space c = true) (group_or_empty m 1).
Proof.
  intros E. apply re_search_sound in E as (a & b & _ & Hd).
  unfold degree_pattern in Hd.
  do 4 peel_no_group Hd.
  cbn [seqs fold_right den] in Hd.
  destruct Hd as (l1 & l2 & c1 & c2 & _ & Hc & (c1i & Hp & ->) & (_ & ->)).
  apply den_plus in Hp as (_ & Hl & ->).
  unfold group_or_empty, group. now rewrite Hc.
Qed.

Lemma university_group_is_words (section_text : text) (m : rmatch) :
  re_search university_pattern section_text = Some m ->
  Forall (fun c => letter_or_space c = true)
    (if nonempty (group_or_empty m 1)
     then group_or_empty m 1 else group_or_empty m 2).
Proof.
  intros E. apply re_search_sound in E as (a & b & _ & Hd).
  unfold university_pattern in Hd. cbn [den] in Hd.
  destruct Hd as [Hd|(c1 & Hd & Hc)].
  - do 4 peel_no_group Hd.
    cbn [seqs fold_right den] in Hd.
    destruct Hd as (l1 & l2 & c1 & c2 & _ & Hc & (c1i & Hp & ->) & (_ & ->)).
    apply den_plus in Hp as (Hne & Hl & ->).
    unfold group_or_empty, group. rewrite Hc. cbn.
    destruct l1; [congruence|exact Hl].
  - pose proof (den_reads _ _ university_names_read_letters _ _ _ _ Hd) as Hl.
    assert (c1 = []) as ->.
    { revert Hd. apply den_no_group. reflexivity. }
    unfold group_or_empty, group. rewrite Hc. cbn. exact Hl.
Qed.

Lemma year_match_is_year (U : unicode_db) (section_text : text) (m : rmatch) :
  re_search (year_pattern U) section_text = Some m -> is_year U (m_text m).
Proof.
  intros E. apply re_search_sound in E as (a & b & _ & Hd).
  unfold year_pattern in Hd. cbn [seqs fold_right den] in Hd.
  destruct Hd as (l1 & r1 & c1 & c1' & -> & _ & (-> & _) & Hd).
  destruct Hd as (l2 & r2 & c2 & c2' & -> & _ & Hc & Hd).
  destruct Hd as (l3 & r3 & c3 & c3' & -> & _ & Ht & Hd).
  destruct Hd as (l4 & r4 & c4 & c4' & -> & _ & (-> & _) & (-> & _)).
  apply den_times in Ht as (Hn & Hdig & _).
  destruct l3 as [|d1 [|d2 [|]]]; try discriminate.
  exists d1, d2. split.
  - destruct Hc as [Hc|Hc]; apply den_lits in Hc as (-> & _);
      [left|right]; reflexivity.
  - split; [exact (Forall_inv Hdig)|exact (Forall_inv (Forall_inv_tail Hdig))].
Qed.

(** What the three searches inside an education section give. *)
Lemma education_fragments_shape (U : unicode_db) (section_text : text) :
  exists degree university year,
    education_fragments U section_text
    = labelled "Degree: " degree ++ labelled "University: " university
      ++ labelled "Year: " year
    /\ option_holds is_trimmed_words degree
    /\ option_holds is_trimmed_words university
    /\ option_holds (is_year U) year.
Proof.
  unfold education_fragments.
  exists (option_map (fun m => strip (group_or_empty m 1))
            (re_search degree_pattern section_text)),
         (option_map (fun m => strip (if nonempty (group_or_empty m 1)
                                      then group_or_empty m 1
                                      else group_or_empty m 2))
            (re_search university_pattern section_text)),
         (option_map m_text (re_search (year_pattern U) section_text)).
  pose proof (degree_group_is_words section_text) as Hd.
  pose proof (university_group_is_words section_text) as Hu.
  pose proof (year_match_is_year U section_text) as Hy.
  destruct (re_search degree_pattern section_text) as [md|];
    destruct (re_search university_pattern section_text) as [mu|];
    destruct (re_search (year_pattern U) section_text) as [my|];
    cbn [labelled option_map option_holds];
    (split; [reflexivity|split; [|split]]);
    try exact I;
    try (apply trimmed_words_of; auto; fail);
    now apply Hy.
Qed.

(** X7: the education signals.  Without one of the three keywords in the
    lowercased text there is none.  Otherwise there are at most three, in
    the order degree, institution, year, each under its label: a degree and
    an institution are trimmed runs of letters and whitespace, a year is
    "19" or "20" and two digits. *)
Theorem education_signals_shape
    (U : unicode_db) (nlp : text -> list entity)
    (skills_file : option (list text)) (resume_text : text) :
  let r := parse_resume_info U nlp skills_file resume_text in
  ((forall keyword, In keyword education_keywords ->
      is_substring (str keyword) (lower U resume_text) = false) ->
   education r = [])
  /\ exists degree university year,
       education r
       = labelled "Degree: " degree ++ labelled "University: " university
         ++ labelled "Year: " year
       /\ option_holds is_trimmed_words degree
       /\ option_holds is_trimmed_words university
       /\ option_holds (is_year U) year.
Proof.
  intros r. unfold r, parse_resume_info; cbn [education].
  split.
  - intros H. unfold education_keywords in *. cbn [extract_education_loop].
    rewrite !H; [reflexivity| | |]; cbn; tauto.
  - assert (Hloop : forall keywords,
              extract_education_loop U keywords (lower U resume_text) = []
              \/ exists section_text,
                   extract_education_loop U keywords (lower U resume_text)
                   = education_fragments U section_text).
    { induction keywords as [|keyword rest IH]; cbn [extract_education_loop];
        [now left|].
      destruct (is_substring _ _); [|exact IH].
      destruct (re_search _ _) as [m|]; [|exact IH].
      right. now exists (m_text m). }
    destruct (Hloop education_keywords) as [-> | (section_text & ->)].
    + exists None, None, None. now repeat split.
    + apply education_fragments_shape.
Qed.

(** ** scoring_logic.py: the requirement miner *)

(** X8: every fragment the miner returns, in any of the three categories,
    is not empty, is trimmed, and contains none of "*", "-", the bullet
    U+2022, ",", ";" and the newline; and the minimum experience is never
    negative. *)
Theorem mined_requirements_are_clean (U : unicode_db) (jd_text : text) :
  let jd := _extract_jd_requirements U jd_text in
  Forall is_clean_fragment
         (jd_skills jd ++ jd_responsibilities jd ++ jd_education jd)
  /\ (0 <= jd_experience_years jd)%Z.
Proof.
  intros jd.
  assert (Hsec : forall header s, Forall is_clean_fragment (extract_section header s)).
  { intros header s. unfold extract_section.
    destruct (re_search _ s); [apply section_fragments_shape|constructor]. }
  split.
  - unfold jd, _extract_jd_requirements.
    cbn [jd_skills jd_responsibilities jd_education].
    apply Forall_app; split; [|apply Forall_app; split]; apply Hsec.
  - unfold jd, _extract_jd_requirements. cbn [jd_experience_years].
    destruct (re_search _ _); [apply int_of_digits_nonneg|lia].
Qed.

Lemma ilits_rejects_blank (a : ascii) (s : string) :
  forallb (fun c => negb (is_char_ci a c)) whitespace_chars = true ->
  rejects_blank (ilits (String a s)).
Proof.
  intros H. left. intros c Hc.
  exact (cls_rejects_blank (is_char_ci a) H c Hc).
Qed.

Lemma skills_header_rejects_blank : rejects_blank skills_header.
Proof.
  split; [left; split|split; [|left]]; now apply ilits_rejects_blank.
Qed.

Lemma responsibilities_header_rejects_blank :
  rejects_blank responsibilities_header.
Proof.
  split; [left|split]; now apply ilits_rejects_blank.
Qed.

Lemma education_header_rejects_blank : rejects_blank education_header.
Proof.
  split; [|split; [|left]]; now apply ilits_rejects_blank.
Qed.

Lemma extract_section_blank (header : regex) (jd_lower : text) :
  rejects_blank header -> blank jd_lower -> extract_section header jd_lower = [].
Proof.
  intros Hh Hb. unfold extract_section, re_search.
  rewrite rejects_blank_search; [reflexivity| |exact Hb].
  left. exact Hh.
Qed.

(** A blank job description names no requirement. *)
Lemma blank_jd_requirements (U : unicode_db) (jd_text : text) :
  (forall c, isspace c = true -> decimal U c = None) ->
  blank (lower U jd_text) ->
  _extract_jd_requirements U jd_text = no_requirements.
Proof.
  intros Hdec Hb. unfold _extract_jd_requirements, no_requirements.
  rewrite (extract_section_blank _ _ skills_header_rejects_blank Hb).
  rewrite (extract_section_blank _ _ responsibilities_header_rejects_blank Hb).
  rewrite (extract_section_blank _ _ education_header_rejects_blank Hb).
  unfold re_search. rewrite rejects_blank_search; [reflexivity| |exact Hb].
  left. left. exact (isdigit_rejects_blank U Hdec).
Qed.

(** ** scoring_logic.py: the scorer *)

Section ScorerFurther.
Variable U : unicode_db.
Variable embedding : Type.
Variable encode : text -> embedding.
Variable cos_sim : embedding -> embedding -> Q.

(** X9: a blank job description (the empty one included) names no
    requirement, and every candidate scores 90 against it: 100, 100, the
    neutral 50 and 100.  The hypotheses are facts of Unicode: a whitespace
    character is not a decimal digit, and lowercasing keeps the blank text
    blank. *)
Theorem blank_job_description_scores_90
    (c : CandidateRecord) (jd_text : text) :
  (forall x, isspace x = true -> decimal U x = None) ->
  blank jd_text ->
  blank (lower U jd_text) ->
  _extract_jd_requirements U jd_text = no_requirements
  /\ (fst (score_resume U encode cos_sim c jd_text) == 90)%Q
  /\ snd (score_resume U encode cos_sim c jd_text) = no_requirements_reasoning.
Proof.
  intros Hdec _ Hb.
  pose proof (blank_jd_requirements U jd_text Hdec Hb) as E.
  split; [exact E|].
  unfold score_resume. rewrite E.
  unfold skill_match, experience_match, responsibility_match, education_match.
  cbn [no_requirements jd_skills jd_responsibilities jd_experience_years
       jd_education nonempty andb Z.ltb Z.compare].
  split; vm_compute; reflexivity.
Qed.

(** The best similarity exceeds the threshold exactly when the similarity
    to some skill of the resume does. *)
Lemma Qgtb_Qmax (x y t : Q) : Qgtb (Qmax x y) t = Qgtb x t || Qgtb y t.
Proof.
  unfold Qgtb, Qmax.
  destruct (Qle_bool x y) eqn:Exy, (Qle_bool x t) eqn:Ext,
    (Qle_bool y t) eqn:Eyt; cbn; try reflexivity; exfalso;
    repeat match goal with
    | H : Qle_bool _ _ = true |- _ => apply Qle_bool_iff in H
    | H : Qle_bool _ _ = false |- _ =>
        apply not_true_iff_false in H; rewrite Qle_bool_iff in H
    end; lra.
Qed.

Lemma Qgtb_fold_Qmax (t : Q) (xs : list Q) :
  forall x,
    Qgtb (fold_left Qmax xs x) t = Qgtb x t || existsb (fun y => Qgtb y t) xs.
Proof.
  induction xs as [|y xs IH]; intros x; cbn [fold_left existsb].
  - now rewrite orb_false_r.
  - now rewrite IH, Qgtb_Qmax, orb_assoc.
Qed.

Lemma existsb_of_map (X Y : Type) (f : Y -> bool) (g : X -> Y) (l : list X) :
  existsb f (map g l) = existsb (fun x => f (g x)) l.
Proof.
  induction l as [|x l IH]; cbn [map existsb]; [reflexivity|now rewrite IH].
Qed.

Lemma skill_matched_iff (jd_skill : text) (resume_skills : list text) :
  match max_sim encode cos_sim jd_skill resume_skills with
  | Some m => Qgtb m (6 # 10)
  | None => false
  end
  = existsb (fun s => Qgtb (cos_sim (encode jd_skill) (encode s)) (6 # 10))
            resume_skills.
Proof.
  unfold max_sim. destruct resume_skills as [|s rest]; [reflexivity|].
  cbn [map existsb]. rewrite Qgtb_fold_Qmax. f_equal.
  now rewrite existsb_of_map.
Qed.

Lemma filter_length_le (X : Type) (f g : X -> bool) (l : list X) :
  (forall x, f x = true -> g x = true) ->
  (length (filter f l) <= length (filter g l))%nat.
Proof.
  intros H. induction l as [|x l IH]; cbn [filter]; [lia|].
  destruct (f x) eqn:E.
  - rewrite (H x E). cbn; lia.
  - destruct (g x); cbn; lia.
Qed.

(** More skills on the resume match at least as many required skills. *)
Lemma matched_jd_skills_incl (jd_required_skills rs1 rs2 : list text) :
  incl rs1 rs2 ->
  (matched_jd_skills encode cos_sim jd_required_skills rs1
   <= matched_jd_skills encode cos_sim jd_required_skills rs2)%nat.
Proof.
  intros Hincl. unfold matched_jd_skills. apply filter_length_le.
  intros j. rewrite !skill_matched_iff, !existsb_exists.
  intros (s & Hin & Hs). exists s. split; [now apply Hincl|exact Hs].
Qed.

Lemma matched_jd_skills_bound (jd_required_skills rs : list text) :
  (matched_jd_skills encode cos_sim jd_required_skills rs
   <= length jd_required_skills)%nat.
Proof.
  unfold matched_jd_skills.
  induction jd_required_skills as [|j js IH]; cbn [filter length]; [lia|].
  destruct (match max_sim encode cos_sim j rs with
            | Some m => Qgtb m (6 # 10) | None => false end); cbn [length]; lia.
Qed.

Lemma ratio_le (a b n : nat) :
  (0 < n)%nat -> (a <= b)%nat ->
  (inject_Z (Z.of_nat a) / inject_Z (Z.of_nat n) * 100
   <= inject_Z (Z.of_nat b) / inject_Z (Z.of_nat n) * 100)%Q.
Proof.
  intros Hn Hab. apply Qmult_le_compat_r; [|discriminate].
  apply Qmult_le_compat_r; [rewrite <- Zle_Qle; lia|].
  apply Qlt_le_weak, Qinv_lt_0_compat.
  change 0%Q with (inject_Z 0). rewrite <- Zlt_Qlt. lia.
Qed.

Lemma ratio_range (a n : nat) :
  (0 < n)%nat -> (a <= n)%nat ->
  (0 <= inject_Z (Z.of_nat a) / inject_Z (Z.of_nat n) * 100 <= 100)%Q.
Proof.
  intros Hn Han.
  assert (Hq : ~ (inject_Z (Z.of_nat n) == 0)%Q)
    by (unfold Qeq; cbn; lia).
  split.
  - assert (E : (0 == inject_Z (Z.of_nat 0) / inject_Z (Z.of_nat n) * 100)%Q)
      by (cbn [Z.of_nat]; change (inject_Z 0) with 0%Q; now field).
    rewrite E at 1. apply ratio_le; lia.
  - assert (E : (100 == inject_Z (Z.of_nat n) / inject_Z (Z.of_nat n) * 100)%Q)
      by now field.
    rewrite E at 2. now apply ratio_le.
Qed.

(** The skill sub-score lies in [0, 100]. *)
Lemma skill_match_range (c : CandidateRecord) (jd : JobRequirements) :
  (0 <= fst (skill_match encode cos_sim c jd) <= 100)%Q.
Proof.
  unfold skill_match.
  destruct (jd_skills jd) as [|j js] eqn:Ej; [cbn; lra|].
  destruct (skills c) as [|s ss] eqn:Es; [cbn; lra|].
  cbn [fst]. apply ratio_range; [cbn; lia|].
  apply matched_jd_skills_bound.
Qed.

(** The experience sub-score lies in [0, 100]. *)
Lemma experience_match_range (c : CandidateRecord) (jd : JobRequirements) :
  (0 <= fst (experience_match U c jd) <= 100)%Q.
Proof.
  rewrite experience_match_score.
  pose proof (experience_years_in_resume_nonneg U c) as Hn.
  set (n := experience_years_in_resume U c) in *.
  set (m := jd_experience_years jd).
  destruct (Z.ltb_spec 0 m); [|lra].
  destruct (Z.leb_spec m n); [lra|].
  assert (E : (inject_Z n / inject_Z m * 100
               == inject_Z (Z.of_nat (Z.to_nat n))
                  / inject_Z (Z.of_nat (Z.to_nat m)) * 100)%Q)
    by (rewrite !Z2Nat.id by lia; reflexivity).
  rewrite E. apply ratio_range; lia.
Qed.

(** The education sub-score is 0 or 100. *)
Lemma education_match_binary (c : CandidateRecord) (jd : JobRequirements) :
  fst (education_match U c jd) = 0%Q \/ fst (education_match U c jd) = 100%Q.
Proof.
  unfold education_match. destruct (jd_education jd); [now right|].
  destruct (existsb _ _); [now right|now left].
Qed.

Lemma responsibility_match_cases (c : CandidateRecord) (jd : JobRequirements) :
  fst (responsibility_match encode cos_sim c jd) = 50%Q
  \/ fst (responsibility_match encode cos_sim c jd)
     = (cos_sim (encode (join (str " ") (jd_responsibilities jd)))
                (encode (raw_text c)) * 100)%Q.
Proof.
  unfold responsibility_match.
  destruct (nonempty _ && nonempty _); [now right|now left].
Qed.

Lemma score_resume_range (c : CandidateRecord) (jd_text : text) :
  (0 <= cos_sim (encode (join (str " ")
                   (jd_responsibilities (_extract_jd_requirements U jd_text))))
                (encode (raw_text c)) <= 1)%Q ->
  (0 <= fst (score_resume U encode cos_sim c jd_text) <= 100)%Q.
Proof.
  intros Hsim.
  rewrite (score_resume_final U embedding encode cos_sim c jd_text).
  cbv zeta.
  apply round2_range, total_score_range.
  - apply skill_match_range.
  - apply experience_match_range.
  - destruct (responsibility_match_cases c (_extract_jd_requirements U jd_text))
      as [-> | ->]; lra.
  - destruct (education_match_binary c (_extract_jd_requirements U jd_text))
      as [-> | ->]; lra.
Qed.

(** X10: the range of the score.  The skill and experience sub-scores
    always lie in [0, 100] and the education sub-score is 0 or 100; the
    responsibility sub-score is 50 or 100 times the similarity of the
    joined responsibilities to the raw text.  So the final score lies in
    [0, 100] as soon as that one similarity lies in [0, 1]. *)
Theorem score_in_range_when_similarity_is
    (c : CandidateRecord) (jd_text : text) :
  let jd := _extract_jd_requirements U jd_text in
  let sim := cos_sim (encode (join (str " ") (jd_responsibilities jd)))
                     (encode (raw_text c)) in
  ((0 <= fst (skill_match encode cos_sim c jd) <= 100)
   /\ (0 <= fst (experience_match U c jd) <= 100)
   /\ (fst (education_match U c jd) = 0 \/ fst (education_match U c jd) = 100)
   /\ (fst (responsibility_match encode cos_sim c jd) = 50
       \/ fst (responsibility_match encode cos_sim c jd) = sim * 100)
   /\ (0 <= sim <= 1 ->
       0 <= fst (score_resume U encode cos_sim c jd_text) <= 100))%Q.
Proof.
  intros jd sim.
  split; [apply skill_match_range|]. split; [apply experience_match_range|].
  split; [apply education_match_binary|].
  split; [apply responsibility_match_cases|].
  apply score_resume_range.
Qed.


(** The skill sub-score and its sentence depend on the resume skills only
    through the number of required skills they match. *)
Lemma skill_match_by_count (c1 c2 : CandidateRecord) (jd : JobRequirements) :
  (skills c1 = [] <-> skills c2 = []) ->
  matched_jd_skills encode cos_sim (jd_skills jd) (skills c1)
  = matched_jd_skills encode cos_sim (jd_skills jd) (skills c2) ->
  skill_match encode cos_sim c1 jd = skill_match encode cos_sim c2 jd.
Proof.
  intros He Hm. unfold skill_match.
  destruct (jd_skills jd) as [|j js]; [reflexivity|].
  destruct (skills c1) as [|s1 r1], (skills c2) as [|s2 r2];
    try reflexivity.
  - destruct He as [He _]. specialize (He eq_refl). discriminate.
  - destruct He as [_ He]. specialize (He eq_refl). discriminate.
  - now rewrite Hm.
Qed.

(** X12: more skills never lower the skill sub-score: if every skill of one
    record is a skill of another, the first scores at most what the second
    scores on skills, against any requirements. *)
Theorem skill_sub_score_monotone_in_skills
    (c1 c2 : CandidateRecord) (jd : JobRequirements) :
  incl (skills c1) (skills c2) ->
  (fst (skill_match encode cos_sim c1 jd)
   <= fst (skill_match encode cos_sim c2 jd))%Q.
Proof.
  intros Hincl.
  pose proof (skill_match_range c2 jd) as [H2 _].
  pose proof (matched_jd_skills_incl (jd_skills jd) _ _ Hincl) as Hm.
  unfold skill_match in *.
  destruct (jd_skills jd) as [|j js]; [cbn; lra|].
  destruct (skills c1) as [|s1 r1]; [exact H2|].
  destruct (skills c2) as [|s2 r2].
  - exfalso. exact (Hincl s1 (or_introl eq_refl)).
  - cbn [fst]. apply ratio_le; [cbn; lia|exact Hm].
Qed.

(** X13: the score does not depend on the order in which the skills of the
    record are listed, nor on repetitions: replacing them by a list with
    the same members changes neither the score nor the reasoning. *)
Theorem score_depends_on_skills_as_a_set
    (c : CandidateRecord) (new_skills : list text) (jd_text : text) :
  incl (skills c) new_skills -> incl new_skills (skills c) ->
  score_resume U encode cos_sim (with_skills c new_skills) jd_text
  = score_resume U encode cos_sim c jd_text.
Proof.
  intros H1 H2. unfold score_resume.
  set (jd := _extract_jd_requirements U jd_text).
  assert (Es : skill_match encode cos_sim (with_skills c new_skills) jd
               = skill_match encode cos_sim c jd).
  { apply skill_match_by_count; cbn [with_skills skills].
    - split; intros E; rewrite E in *.
      + destruct (skills c) as [|s r]; [reflexivity|].
        exfalso. exact (H1 s (or_introl eq_refl)).
      + destruct new_skills as [|s r]; [reflexivity|].
        exfalso. exact (H2 s (or_introl eq_refl)).
    - apply Nat.le_antisymm; now apply matched_jd_skills_incl. }
  rewrite Es. reflexivity.
Qed.

End ScorerFurther.

(** ** app.py: the endpoint *)



Lemma round2_zero : (round2 0 == 0)%Q.
Proof. reflexivity. Qed.

Lemma insert_by_score_perm (x : candidate_entry) (l : list candidate_entry) :
  Permutation (insert_by_score x l) (x :: l).
Proof.
  induction l as [|y l IH]; cbn [insert_by_score]; [reflexivity|].
  destruct (Qle_bool (cj_score y) (cj_score x)); [reflexivity|].
  rewrite IH. apply perm_swap.
Qed.

Lemma sort_by_score_desc_perm (l : list candidate_entry) :
  Permutation (sort_by_score_desc l) l.
Proof.
  induction l as [|x l IH]; cbn [sort_by_score_desc fold_right]; [reflexivity|].
  rewrite insert_by_score_perm. now apply perm_skip.
Qed.

Lemma insert_by_score_sorted (x : candidate_entry) (l : list candidate_entry) :
  Sorted higher_score_first l -> Sorted higher_score_first (insert_by_score x l).
Proof.
  induction l as [|y l IH]; intros Hs; cbn [insert_by_score].
  - repeat constructor.
  - destruct (Qle_bool (cj_score y) (cj_score x)) eqn:E.
    + constructor; [assumption|]. constructor. now apply Qle_bool_iff.
    + assert (Hxy : (cj_score x <= cj_score y)%Q).
      { apply not_true_iff_false in E. rewrite Qle_bool_iff in E.
        apply Qlt_le_weak, Qnot_le_lt, E. }
      apply Sorted_inv in Hs as [Hs Hhd].
      constructor; [now apply IH|].
      destruct l as [|z l]; cbn [insert_by_score].
      * constructor. exact Hxy.
      * apply HdRel_inv in Hhd.
        destruct (Qle_bool (cj_score z) (cj_score x)); constructor; assumption.
Qed.

Lemma sort_by_score_desc_sorted (l : list candidate_entry) :
  Sorted higher_score_first (sort_by_score_desc l).
Proof.
  induction l as [|x l IH]; cbn [sort_by_score_desc fold_right]; [constructor|].
  now apply insert_by_score_sorted.
Qed.

Lemma no_named_file_iff (file : Type) (resume_files : list (upload file)) :
  negb (nonempty resume_files)
  || forallb (fun f => negb (nonempty (up_filename f))) resume_files = true
  <-> named_files resume_files = [].
Proof.
  unfold named_files.
  induction resume_files as [|f l IH]; cbn [nonempty negb forallb filter orb].
  - tauto.
  - cbn [nonempty negb orb] in IH.
    destruct (nonempty (up_filename f)); cbn [negb andb].
    + split; discriminate.
    + rewrite <- IH. destruct l; cbn; tauto.
Qed.

Section ScreenResumesProperties.
Variable U : unicode_db.
Variable nlp : text -> list entity.
Variable skills_file : option (list text).
Variable embedding : Type.
Variable encode : text -> embedding.
Variable cos_sim : embedding -> embedding -> Q.
Variable file : Type.
Variable secure_filename : text -> text.
Variable extract_text_from_file : text -> file -> option text.
Variable db : Type.
Variable insert_resume : text -> CandidateRecord -> db -> option Z * db.
Variable insert_screening_result : Z -> text -> Q -> text -> db -> option Z * db.

Let endpoint :=
  screen_resumes_endpoint U nlp skills_file encode cos_sim secure_filename
    extract_text_from_file insert_resume insert_screening_result.
Let process_one :=
  process_resume_file U nlp skills_file encode cos_sim secure_filename
    extract_text_from_file insert_resume insert_screening_result.
Let process_all :=
  process_resume_files U nlp skills_file encode cos_sim secure_filename
    extract_text_from_file insert_resume insert_screening_result.

(** X14: the endpoint answers 400 exactly when the form has no
    job description, or the request has no "resume_files" part, or none of
    the files has a name; and then it leaves the database as it was. *)
Theorem endpoint_rejects_unusable_requests (req : request file) (d : db) :
  ((exists error, fst (endpoint req d) = Bad_request error) <->
   form_job_description req = None
   \/ files_resume_files req = None
   \/ exists resume_files,
        files_resume_files req = Some resume_files
        /\ named_files resume_files = [])
  /\ (forall error,
        fst (endpoint req d) = Bad_request error -> snd (endpoint req d) = d).
Proof.
  unfold endpoint, screen_resumes_endpoint.
  destruct (form_job_description req) as [jd|];
    [|split; [split; [now left|now eexists]|reflexivity]].
  destruct (files_resume_files req) as [fs|];
    [|split; [split; [now right; left|now eexists]|reflexivity]].
  pose proof (no_named_file_iff file fs) as Hn.
  destruct (negb (nonempty fs) || forallb _ fs).
  - split; [|reflexivity]. split; [|now eexists].
    intros _. right; right. exists fs. split; [reflexivity|now apply Hn].
  - destruct (process_resume_files _ _ _ _ _ _ _ _ _ _ _ _) as [cs d1].
    cbn [fst snd]. split; [|discriminate]. split.
    + intros [error H]. discriminate.
    + intros [H|[H|(fs' & [= <-] & H)]]; try discriminate.
      apply Hn in H. discriminate.
Qed.

Lemma process_one_filename (jd : text) (f : upload file) (d : db) :
  cj_filename (fst (process_one jd f d)) = secure_filename (up_filename f).
Proof.
  unfold process_one, process_resume_file.
  destruct (extract_and_parse _ _ _ _) as [parsed|[ve]]; [|reflexivity].
  destruct (insert_resume _ _ _) as [[id|] d1]; [|reflexivity].
  destruct (truthy_id _); [|reflexivity].
  destruct (score_resume _ _ _ _ _) as [s r].
  now destruct (insert_screening_result _ _ _ _ _).
Qed.

Lemma process_all_filenames (jd : text) (fs : list (upload file)) :
  forall d,
    map cj_filename (fst (process_all jd fs d))
    = map (fun f => secure_filename (up_filename f)) (named_files fs).
Proof.
  unfold process_all, named_files.
  induction fs as [|f fs IH]; intros d;
    cbn [process_resume_files filter]; [reflexivity|].
  destruct (nonempty (up_filename f)); [|apply IH].
  pose proof (process_one_filename jd f d) as Hf.
  unfold process_one in Hf.
  destruct (process_resume_file _ _ _ _ _ _ _ _ _ _ _ _) as [entry d1].
  specialize (IH d1).
  destruct (process_resume_files _ _ _ _ _ _ _ _ _ _ _ _) as [entries d2].
  cbn [fst map] in *. now rewrite Hf, IH.
Qed.

(** X15: a successful response lists one entry for each file that has a
    name, and no other: the entries are those of the files, taken in the
    order of the request, then sorted by score, the highest first. *)
Theorem endpoint_lists_every_named_file
    (req : request file) (d : db) (candidates : list candidate_entry) :
  fst (endpoint req d) = Success candidates ->
  exists job_description resume_files,
    form_job_description req = Some job_description
    /\ files_resume_files req = Some resume_files
    /\ Permutation candidates (fst (process_all job_description resume_files d))
    /\ Sorted higher_score_first candidates
    /\ map cj_filename (fst (process_all job_description resume_files d))
       = map (fun f => secure_filename (up_filename f))
             (named_files resume_files)
    /\ length candidates = length (named_files resume_files)
    /\ snd (endpoint req d) = snd (process_all job_description resume_files d).
Proof.
  unfold endpoint, screen_resumes_endpoint.
  destruct (form_job_description req) as [jd|]; [|discriminate].
  destruct (files_resume_files req) as [fs|]; [|discriminate].
  destruct (negb (nonempty fs) || forallb _ fs); [discriminate|].
  pose proof (process_all_filenames jd fs d) as Hf. unfold process_all in *.
  destruct (process_resume_files _ _ _ _ _ _ _ _ _ _ _ _) as [cs d1] eqn:E.
  cbn [fst snd] in *. intros [= <-].
  exists jd, fs. rewrite E. cbn [fst snd].
  repeat split; try assumption.
  - apply sort_by_score_desc_perm.
  - apply sort_by_score_desc_sorted.
  - rewrite (Permutation_length (sort_by_score_desc_perm cs)).
    rewrite <- (length_map cj_filename), Hf. apply length_map.
Qed.

(** X16: a file that gives no text does not stop the request.  When
    [extract_text_from_file] returns nothing or the empty text, the file
    still gets its entry: no id, the name "N/A", no skills, the score 0 and
    the message of the guard as reasoning; and the database is not
    touched. *)
Theorem unreadable_file_still_listed
    (job_description : text) (resume_file : upload file) (d : db) :
  let original_filename := secure_filename (up_filename resume_file) in
  extract_text_from_file original_filename (up_file resume_file) = None
  \/ extract_text_from_file original_filename (up_file resume_file) = Some [] ->
  let entry := fst (process_one job_description resume_file d) in
  cj_id entry = None
  /\ cj_filename entry = original_filename
  /\ cj_name entry = Some (str "N/A")
  /\ cj_extracted_skills entry = []
  /\ (cj_score entry == 0)%Q
  /\ cj_reasoning entry
     = str "File processing/parsing error: " ++ could_not_extract
  /\ snd (process_one job_description resume_file d) = d.
Proof.
  intros original_filename H entry.
  unfold entry, process_one, process_resume_file. fold original_filename.
  destruct H as [-> | ->]; cbn; repeat split; reflexivity.
Qed.

(** X17: a resume the database does not store is listed without a score.
    When the file gives a text and [insert_resume] returns no id, the entry
    carries the name and the skills extracted from the text, the score 0
    and the reasoning "Server error during processing: Failed to save
    resume to database."; the resume is not scored and no screening result
    is inserted. *)
Theorem unsaved_resume_is_not_scored
    (job_description : text) (resume_file : upload file) (d d1 : db)
    (raw_text : text) :
  let original_filename := secure_filename (up_filename resume_file) in
  let parsed_data := parse_resume_info U nlp skills_file raw_text in
  extract_text_from_file original_filename (up_file resume_file)
  = Some raw_text ->
  raw_text <> [] ->
  insert_resume original_filename parsed_data d = (None, d1) ->
  let entry := fst (process_one job_description resume_file d) in
  cj_id entry = None
  /\ cj_name entry = name parsed_data
  /\ cj_extracted_skills entry = skills parsed_data
  /\ (cj_score entry == 0)%Q
  /\ cj_reasoning entry
     = str "Server error during processing: Failed to save resume to database."
  /\ snd (process_one job_description resume_file d) = d1.
Proof.
  intros original_filename parsed_data Ht Hne Hi entry.
  unfold entry, process_one, process_resume_file. fold original_filename.
  rewrite Ht. unfold extract_and_parse.
  destruct raw_text as [|x t]; [congruence|]. cbn [nonempty].
  fold parsed_data. rewrite Hi. cbn. repeat split; reflexivity.
Qed.


Lemma process_one_score_range (jd : text) (f : upload file) (d : db) :
  (forall a b, 0 <= cos_sim a b <= 1)%Q ->
  (0 <= cj_score (fst (process_one jd f d)) <= 100)%Q.
Proof.
  intros Hsim.
  assert (H0 : (0 <= round2 0 <= 100)%Q) by (apply round2_range; lra).
  unfold process_one, process_resume_file.
  destruct (extract_and_parse _ _ _ _) as [parsed|[ve]]; [|exact H0].
  destruct (insert_resume _ _ _) as [[id|] d1]; [|exact H0].
  destruct (truthy_id _); [|exact H0].
  pose proof (score_resume_range U embedding encode cos_sim parsed jd
                (Hsim _ _)) as Hs.
  destruct (score_resume _ _ _ _ _) as [s r].
  destruct (insert_screening_result _ _ _ _ _). cbn [fst cj_score] in *.
  now apply round2_range.
Qed.

Lemma process_all_score_range (jd : text) (fs : list (upload file)) :
  (forall a b, 0 <= cos_sim a b <= 1)%Q ->
  forall d,
    Forall (fun entry => 0 <= cj_score entry <= 100)%Q
           (fst (process_all jd fs d)).
Proof.
  intros Hsim. unfold process_all.
  induction fs as [|f fs IH]; intros d; cbn [process_resume_files];
    [constructor|].
  destruct (nonempty (up_filename f)); [|apply IH].
  pose proof (process_one_score_range jd f d Hsim) as Hf.
  unfold process_one in Hf.
  destruct (process_resume_file _ _ _ _ _ _ _ _ _ _ _ _) as [entry d1].
  specialize (IH d1).
  destruct (process_resume_files _ _ _ _ _ _ _ _ _ _ _ _) as [entries d2].
  cbn [fst] in *. now constructor.
Qed.

(** X19: with a similarity that stays in [0, 1], every score of a response
    lies in [0, 100], the scores of the files that failed included. *)
Theorem response_scores_in_range
    (req : request file) (d : db) (candidates : list candidate_entry) :
  (forall a b, 0 <= cos_sim a b <= 1)%Q ->
  fst (endpoint req d) = Success candidates ->
  Forall (fun entry => 0 <= cj_score entry <= 100)%Q candidates.
Proof.
  intros Hsim. unfold endpoint, screen_resumes_endpoint.
  destruct (form_job_description req) as [jd|]; [|discriminate].
  destruct (files_resume_files req) as [fs|]; [|discriminate].
  destruct (negb (nonempty fs) || forallb _ fs); [discriminate|].
  pose proof (process_all_score_range jd fs Hsim d) as Hr.
  unfold process_all in Hr.
  destruct (process_resume_files _ _ _ _ _ _ _ _ _ _ _ _) as [cs d1].
  cbn [fst] in *. intros [= <-].
  apply Forall_forall. intros entry Hin. rewrite Forall_forall in Hr.
  apply Hr. apply (Permutation_in _ (sort_by_score_desc_perm cs)), Hin.
Qed.

End ScreenResumesProperties.

(** ** scoring_logic.py: what raises a score *)

(** Rounding to the nearest integer is monotone. *)
Lemma round_half_even_monotone (x y : Q) :
  (x <= y)%Q -> (round_half_even x <= round_half_even y)%Z.
Proof.
  intros Hxy.
  pose proof (Qfloor_resp_le _ _ Hxy) as Hf.
  pose proof (Qfloor_le x) as Hx1. pose proof (Qlt_floor x) as Hx2.
  pose proof (Qfloor_le y) as Hy1. pose proof (Qlt_floor y) as Hy2.
  rewrite inject_Z_plus in Hx2, Hy2.
  change (inject_Z 1) with 1%Q in Hx2, Hy2.
  unfold round_half_even.
  destruct (Z.eq_dec (Qfloor x) (Qfloor y)) as [E|E].
  - rewrite <- E in *.
    destruct (Qcompare_spec (x - inject_Z (Qfloor x))%Q (1 # 2)%Q) as [Hx|Hx|Hx];
      destruct (Qcompare_spec (y - inject_Z (Qfloor x))%Q (1 # 2)%Q) as [Hy|Hy|Hy];
      try (destruct (Z.even (Qfloor x))); try lia;
      exfalso; generalize dependent (inject_Z (Qfloor x)); intros; lra.
  - assert (Hlt : (Qfloor x + 1 <= Qfloor y)%Z) by lia.
    destruct (x - inject_Z (Qfloor x) ?= 1 # 2)%Q;
      destruct (y - inject_Z (Qfloor y) ?= 1 # 2)%Q;
      try (destruct (Z.even (Qfloor x))); try (destruct (Z.even (Qfloor y)));
      lia.
Qed.

(** Rounding to two decimals is monotone. *)
Lemma round2_monotone (x y : Q) : (x <= y)%Q -> (round2 x <= round2 y)%Q.
Proof.
  intros Hxy. unfold round2.
  apply Qmult_le_compat_r; [|discriminate].
  rewrite <- Zle_Qle. apply round_half_even_monotone. lra.
Qed.

Section ScoreGrowth.
Variable U : unicode_db.
Variable embedding : Type.
Variable encode : text -> embedding.
Variable cos_sim : embedding -> embedding -> Q.

Lemma experience_match_monotone (c1 c2 : CandidateRecord) (jd : JobRequirements) :
  (experience_years_in_resume U c1 <= experience_years_in_resume U c2)%Z ->
  (fst (experience_match U c1 jd) <= fst (experience_match U c2 jd))%Q.
Proof.
  intros Hn.
  pose proof (experience_match_range U c2 jd) as [_ H2].
  pose proof (experience_years_in_resume_nonneg U c1) as H1.
  rewrite experience_match_score in H2. rewrite !experience_match_score.
  set (n1 := experience_years_in_resume U c1) in *.
  set (n2 := experience_years_in_resume U c2) in *.
  set (m := jd_experience_years jd) in *.
  destruct (Z.ltb_spec 0 m); [|lra].
  destruct (Z.leb_spec m n1), (Z.leb_spec m n2); try lra; try lia.
  - pose proof (experience_match_range U c1 jd) as [_ H1'].
    rewrite experience_match_score in H1'. fold n1 m in H1'.
    destruct (Z.ltb_spec 0 m); [|lia].
    destruct (Z.leb_spec m n1); [lia|]. exact H1'.
  - assert (E : forall n, (0 <= n)%Z ->
              (inject_Z n / inject_Z m * 100
               == inject_Z (Z.of_nat (Z.to_nat n))
                  / inject_Z (Z.of_nat (Z.to_nat m)) * 100)%Q)
      by (intros n Hn0; rewrite !Z2Nat.id by lia; reflexivity).
    rewrite (E n1), (E n2) by lia. apply ratio_le; lia.
Qed.

(** X20: a record with more skills and at least as many years never scores
    lower.  If every skill of one record is a skill of another, the other
    counts at least as many years of experience, and the two have the same
    education signals and raw text, then the final score of the first is
    at most that of the second, against every job description. *)
Theorem more_skills_and_years_never_score_lower
    (c1 c2 : CandidateRecord) (jd_text : text) :
  incl (skills c1) (skills c2) ->
  (experience_years_in_resume U c1 <= experience_years_in_resume U c2)%Z ->
  education c1 = education c2 ->
  raw_text c1 = raw_text c2 ->
  (fst (score_resume U encode cos_sim c1 jd_text)
   <= fst (score_resume U encode cos_sim c2 jd_text))%Q.
Proof.
  intros Hs Hn He Hr.
  rewrite !(score_resume_final U embedding encode cos_sim). cbv zeta.
  set (jd := _extract_jd_requirements U jd_text).
  pose proof (matched_jd_skills_incl embedding encode cos_sim
                (jd_skills jd) _ _ Hs) as Hm.
  assert (Hskill : (fst (skill_match encode cos_sim c1 jd)
                    <= fst (skill_match encode cos_sim c2 jd))%Q).
  { pose proof (skill_match_range embedding encode cos_sim c2 jd) as [H2 _].
    unfold skill_match in *.
    destruct (jd_skills jd) as [|j js]; [cbn; lra|].
    destruct (skills c1) as [|s1 r1]; [exact H2|].
    destruct (skills c2) as [|s2 r2].
    - exfalso. exact (Hs s1 (or_introl eq_refl)).
    - cbn [fst]. apply ratio_le; [cbn; lia|exact Hm]. }
  pose proof (experience_match_monotone c1 c2 jd Hn) as Hexp.
  assert (Hresp : responsibility_match encode cos_sim c1 jd
                  = responsibility_match encode cos_sim c2 jd)
    by (unfold responsibility_match; now rewrite Hr).
  assert (Hedu : education_match U c1 jd = education_match U c2 jd)
    by (unfold education_match; now rewrite He).
  rewrite Hresp, Hedu.
  apply round2_monotone. unfold total_score. lra.
Qed.

(** X21: a resume that lists every required skill gets 100 on skills.  If
    the job requires at least one skill, every required skill is literally
    among the skills of the record, and a text is more than 0.6 similar to
    itself, then the skill sub-score is 100. *)
Theorem all_required_skills_listed_scores_100
    (c : CandidateRecord) (jd : JobRequirements) :
  (forall t, (6 # 10 < cos_sim (encode t) (encode t))%Q) ->
  jd_skills jd <> [] ->
  incl (jd_skills jd) (skills c) ->
  (fst (skill_match encode cos_sim c jd) == 100)%Q.
Proof.
  intros Hself Hne Hincl.
  assert (Hall : matched_jd_skills encode cos_sim (jd_skills jd) (skills c)
                 = length (jd_skills jd)).
  { unfold matched_jd_skills.
    assert (Hf : forall l, incl l (skills c) ->
              filter (fun jd_skill =>
                        match max_sim encode cos_sim jd_skill (skills c) with
                        | Some m => Qgtb m (6 # 10) | None => false end) l = l).
    { induction l as [|j l IH]; intros Hl; cbn [filter]; [reflexivity|].
      rewrite skill_matched_iff.
      replace (existsb _ (skills c)) with true.
      - f_equal. apply IH. intros x Hx. apply Hl. now right.
      - symmetry. apply existsb_exists. exists j.
        split; [apply Hl; now left|].
        unfold Qgtb. apply negb_true_iff, not_true_iff_false.
        rewrite Qle_bool_iff. apply Qlt_not_le, Hself. }
    now rewrite Hf. }
  unfold skill_match.
  destruct (jd_skills jd) as [|j js] eqn:Ej; [congruence|].
  destruct (skills c) as [|s ss] eqn:Es.
  - exfalso. exact (Hincl j (or_introl eq_refl)).
  - cbn [fst]. rewrite Hall. field.
    unfold Qeq; cbn. lia.
Qed.

End ScoreGrowth.

(** ** The further properties at sample inputs *)


(** X4 at the resume of resume_parser.py. *)
Lemma extracted_email_witness :
  email (parse_resume_info ascii_db no_entities sample_skills_file dummy_resume)
  = Some (str "john.doe@example.com")
  /\ exists a b, dummy_resume = a ++ str "john.doe@example.com" ++ b.
Proof.
  assert (H : email (parse_resume_info ascii_db no_entities sample_skills_file
                       dummy_resume) = Some (str "john.doe@example.com"))
    by (vm_compute; reflexivity).
  split; [exact H|].
  exact (proj1 (extracted_email_shape ascii_db no_entities sample_skills_file
                  dummy_resume (str "john.doe@example.com") H)).
Defined.

(** X5 at the resume of resume_parser.py: "+919876543210" is stored as
    "919876543210". *)
Lemma extracted_phone_witness :
  phone (parse_resume_info ascii_db no_entities sample_skills_file dummy_resume)
  = Some (str "919876543210")
  /\ exists country core extension,
       str "919876543210" = country ++ core ++ extension
       /\ (length country <= 3)%nat /\ length core = 10%nat
       /\ Forall (fun c => isdigit ascii_db c = true) (str "919876543210").
Proof.
  assert (H : phone (parse_resume_info ascii_db no_entities sample_skills_file
                       dummy_resume) = Some (str "919876543210"))
    by (vm_compute; reflexivity).
  split; [exact H|].
  exact (extracted_phone_shape ascii_db no_entities sample_skills_file
           dummy_resume (str "919876543210") H).
Defined.


(** X9 with the ASCII database, at a blank job description. *)
Lemma blank_job_description_witness :
  (forall x, isspace x = true -> decimal ascii_db x = None)
  /\ blank blank_sample
  /\ blank (lower ascii_db blank_sample)
  /\ (fst (score_resume ascii_db identity_encoder exact_match_similarity
             (sample_candidate "5") blank_sample) == 90)%Q.
Proof.
  split; [exact ascii_whitespace_not_decimal|].
  split; [exact blank_sample_is_blank|].
  split; [exact (ascii_lower_blank _ blank_sample_is_blank)|].
  exact (proj1 (proj2 (blank_job_description_scores_90 ascii_db text
                         identity_encoder exact_match_similarity
                         (sample_candidate "5") blank_sample
                         ascii_whitespace_not_decimal blank_sample_is_blank
                         (ascii_lower_blank _ blank_sample_is_blank)))).
Defined.


Lemma sample_skills_included :
  incl (skills (sample_candidate "5")) (skills (sample_candidate_with_aws "5")).
Proof. intros x [<-|[<-|[]]]; cbn; tauto. Qed.

Lemma sample_skills_included_back :
  incl [str "sql"; str "python"; str "sql"] (skills (sample_candidate "5")).
Proof. intros x [<-|[<-|[<-|[]]]]; cbn; tauto. Qed.

Lemma sample_skills_included_forth :
  incl (skills (sample_candidate "5")) [str "sql"; str "python"; str "sql"].
Proof. intros x [<-|[<-|[]]]; cbn; tauto. Qed.

(** X12 at a record and the same record with "aws" added. *)
Lemma skill_monotone_witness :
  incl (skills (sample_candidate "5")) (skills (sample_candidate_with_aws "5"))
  /\ (fst (skill_match identity_encoder exact_match_similarity
             (sample_candidate "5")
             (_extract_jd_requirements ascii_db jd_with_education))
      <= fst (skill_match identity_encoder exact_match_similarity
                (sample_candidate_with_aws "5")
                (_extract_jd_requirements ascii_db jd_with_education)))%Q.
Proof.
  split; [exact sample_skills_included|].
  exact (skill_sub_score_monotone_in_skills text identity_encoder
           exact_match_similarity (sample_candidate "5")
           (sample_candidate_with_aws "5")
           (_extract_jd_requirements ascii_db jd_with_education)
           sample_skills_included).
Defined.

(** X13 at a record whose skills are listed in another order, one twice. *)
Lemma skills_as_a_set_witness :
  incl (skills (sample_candidate "5")) [str "sql"; str "python"; str "sql"]
  /\ incl [str "sql"; str "python"; str "sql"] (skills (sample_candidate "5"))
  /\ score_resume ascii_db identity_encoder exact_match_similarity
       (with_skills (sample_candidate "5") [str "sql"; str "python"; str "sql"])
       jd_with_education
     = score_resume ascii_db identity_encoder exact_match_similarity
         (sample_candidate "5") jd_with_education.
Proof.
  split; [exact sample_skills_included_forth|].
  split; [exact sample_skills_included_back|].
  exact (score_depends_on_skills_as_a_set ascii_db text identity_encoder
           exact_match_similarity (sample_candidate "5")
           [str "sql"; str "python"; str "sql"] jd_with_education
           sample_skills_included_forth sample_skills_included_back).
Defined.

Lemma exact_match_similarity_range (a b : text) :
  (0 <= exact_match_similarity a b <= 1)%Q.
Proof.
  unfold exact_match_similarity.
  destruct (text_eq_dec a b); split; discriminate.
Qed.

Lemma exact_match_similarity_self (t : text) :
  (6 # 10 < exact_match_similarity (identity_encoder t) (identity_encoder t))%Q.
Proof.
  unfold exact_match_similarity.
  destruct (text_eq_dec _ _) as [_|H]; [reflexivity|now destruct H].
Qed.

(** X15 at a request with three files, one of them without a name: two
    entries, the scored resume before the file without text. *)
Lemma endpoint_lists_witness :
  let endpoint :=
    screen_resumes_endpoint ascii_db no_entities sample_skills_file
      identity_encoder exact_match_similarity keep_filename text_of_file
      insert_into_list insert_result_ignored in
  let candidates :=
    match fst (endpoint sample_request []) with
    | Success cs => cs
    | Bad_request _ => []
    end in
  fst (endpoint sample_request []) = Success candidates
  /\ map cj_filename candidates = [str "john.txt"; str "empty.txt"]
  /\ exists job_description resume_files,
       form_job_description sample_request = Some job_description
       /\ files_resume_files sample_request = Some resume_files
       /\ Permutation candidates
            (fst (process_resume_files ascii_db no_entities sample_skills_file
                    identity_encoder exact_match_similarity keep_filename
                    text_of_file insert_into_list insert_result_ignored
                    job_description resume_files []))
       /\ Sorted higher_score_first candidates
       /\ map cj_filename
            (fst (process_resume_files ascii_db no_entities sample_skills_file
                    identity_encoder exact_match_similarity keep_filename
                    text_of_file insert_into_list insert_result_ignored
                    job_description resume_files []))
          = map (fun f => keep_filename (up_filename f))
                (named_files resume_files)
       /\ length candidates = length (named_files resume_files)
       /\ snd (endpoint sample_request [])
          = snd (process_resume_files ascii_db no_entities sample_skills_file
                   identity_encoder exact_match_similarity keep_filename
                   text_of_file insert_into_list insert_result_ignored
                   job_description resume_files []).
Proof.
  intros endpoint candidates.
  assert (H : fst (endpoint sample_request []) = Success candidates)
    by (vm_compute; reflexivity).
  split; [exact H|].
  split; [vm_compute; reflexivity|].
  exact (endpoint_lists_every_named_file ascii_db no_entities
           sample_skills_file text identity_encoder exact_match_similarity
           text keep_filename text_of_file (list text) insert_into_list
           insert_result_ignored sample_request [] candidates H).
Defined.

(** X16 at a file without text. *)
Lemma unreadable_file_witness :
  let resume_file := {| up_filename := str "empty.txt"; up_file := [] |} in
  let entry :=
    fst (process_resume_file ascii_db no_entities sample_skills_file
           identity_encoder exact_match_similarity keep_filename text_of_file
           insert_into_list insert_result_ignored jd_with_education
           resume_file []) in
  (text_of_file (keep_filename (up_filename resume_file)) (up_file resume_file)
   = None
   \/ text_of_file (keep_filename (up_filename resume_file))
        (up_file resume_file) = Some [])
  /\ cj_id entry = None
  /\ cj_filename entry = str "empty.txt"
  /\ cj_name entry = Some (str "N/A")
  /\ cj_extracted_skills entry = []
  /\ (cj_score entry == 0)%Q
  /\ cj_reasoning entry
     = str "File processing/parsing error: " ++ could_not_extract
  /\ snd (process_resume_file ascii_db no_entities sample_skills_file
            identity_encoder exact_match_similarity keep_filename text_of_file
            insert_into_list insert_result_ignored jd_with_education
            resume_file []) = [].
Proof.
  intros resume_file entry.
  assert (H : text_of_file (keep_filename (up_filename resume_file))
                (up_file resume_file) = None
              \/ text_of_file (keep_filename (up_filename resume_file))
                   (up_file resume_file) = Some [])
    by (right; reflexivity).
  split; [exact H|].
  exact (unreadable_file_still_listed ascii_db no_entities sample_skills_file
           text identity_encoder exact_match_similarity text keep_filename
           text_of_file (list text) insert_into_list insert_result_ignored
           jd_with_education resume_file [] H).
Defined.

(** X17 at the resume of resume_parser.py and a database that refuses it. *)
Lemma unsaved_resume_witness :
  let resume_file :=
    {| up_filename := str "john.txt"; up_file := dummy_resume |} in
  let parsed_data :=
    parse_resume_info ascii_db no_entities sample_skills_file dummy_resume in
  let entry :=
    fst (process_resume_file ascii_db no_entities sample_skills_file
           identity_encoder exact_match_similarity keep_filename text_of_file
           insert_refused insert_result_ignored jd_with_education
           resume_file []) in
  text_of_file (keep_filename (up_filename resume_file)) (up_file resume_file)
  = Some dummy_resume
  /\ dummy_resume <> []
  /\ insert_refused (keep_filename (up_filename resume_file)) parsed_data []
     = (None, [])
  /\ cj_id entry = None
  /\ cj_name entry = Some (str "John Doe")
  /\ cj_extracted_skills entry = skills parsed_data
  /\ (cj_score entry == 0)%Q
  /\ cj_reasoning entry
     = str "Server error during processing: Failed to save resume to database.".
Proof.
  intros resume_file parsed_data entry.
  assert (H1 : text_of_file (keep_filename (up_filename resume_file))
                 (up_file resume_file) = Some dummy_resume) by reflexivity.
  assert (H2 : dummy_resume <> []) by discriminate.
  assert (H3 : insert_refused (keep_filename (up_filename resume_file))
                 parsed_data [] = (None, [])) by reflexivity.
  split; [exact H1|]. split; [exact H2|]. split; [exact H3|].
  destruct (unsaved_resume_is_not_scored ascii_db no_entities
              sample_skills_file text identity_encoder exact_match_similarity
              text keep_filename text_of_file (list text) insert_refused
              insert_result_ignored jd_with_education resume_file [] []
              dummy_resume H1 H2 H3) as (E1 & E2 & E3 & E4 & E5 & _).
  split; [exact E1|].
  split; [transitivity (name parsed_data);
          [exact E2|vm_compute; reflexivity]|].
  split; [exact E3|]. split; [exact E4|exact E5].
Defined.


(** X19 at the sample request, with the similarity that is 1 or 1/4. *)
Lemma response_scores_witness :
  let endpoint :=
    screen_resumes_endpoint ascii_db no_entities sample_skills_file
      identity_encoder exact_match_similarity keep_filename text_of_file
      insert_into_list insert_result_ignored in
  let candidates :=
    match fst (endpoint sample_request []) with
    | Success cs => cs
    | Bad_request _ => []
    end in
  (forall a b, 0 <= exact_match_similarity a b <= 1)%Q
  /\ fst (endpoint sample_request []) = Success candidates
  /\ length candidates = 2%nat
  /\ Forall (fun entry => 0 <= cj_score entry <= 100)%Q candidates.
Proof.
  intros endpoint candidates.
  assert (H : fst (endpoint sample_request []) = Success candidates)
    by (vm_compute; reflexivity).
  split; [exact exact_match_similarity_range|].
  split; [exact H|].
  split; [vm_compute; reflexivity|].
  exact (response_scores_in_range ascii_db no_entities sample_skills_file
           text identity_encoder exact_match_similarity text keep_filename
           text_of_file (list text) insert_into_list insert_result_ignored
           sample_request [] candidates exact_match_similarity_range H).
Defined.

(** X20 at a record with three years and the same record with five years
    and one skill more. *)
Lemma more_skills_and_years_witness :
  incl (skills (sample_candidate "3")) (skills (sample_candidate_with_aws "5"))
  /\ (experience_years_in_resume ascii_db (sample_candidate "3")
      <= experience_years_in_resume ascii_db (sample_candidate_with_aws "5"))%Z
  /\ education (sample_candidate "3")
     = education (sample_candidate_with_aws "5")
  /\ raw_text (sample_candidate "3")
     = raw_text (sample_candidate_with_aws "5")
  /\ (fst (score_resume ascii_db identity_encoder exact_match_similarity
             (sample_candidate "3") jd_with_education)
      <= fst (score_resume ascii_db identity_encoder exact_match_similarity
                (sample_candidate_with_aws "5") jd_with_education))%Q.
Proof.
  assert (H2 : (experience_years_in_resume ascii_db (sample_candidate "3")
                <= experience_years_in_resume ascii_db
                     (sample_candidate_with_aws "5"))%Z)
    by (vm_compute; discriminate).
  split; [exact sample_skills_included|].
  split; [exact H2|].
  split; [reflexivity|]. split; [reflexivity|].
  exact (more_skills_and_years_never_score_lower ascii_db text
           identity_encoder exact_match_similarity (sample_candidate "3")
           (sample_candidate_with_aws "5") jd_with_education
           sample_skills_included H2 eq_refl eq_refl).
Defined.

Lemma sample_required_skills_listed :
  incl (jd_skills (_extract_jd_requirements ascii_db jd_with_education))
       (skills (sample_candidate_with_aws "5")).
Proof.
  assert (E : jd_skills (_extract_jd_requirements ascii_db jd_with_education)
              = [str "python"; str "aws"]) by (vm_compute; reflexivity).
  rewrite E. intros x [<-|[<-|[]]]; cbn; tauto.
Qed.

(** X21 at a job that requires "python" and "aws" and a record that lists
    both. *)
Lemma all_required_skills_witness :
  (forall t,
     (6 # 10 < exact_match_similarity (identity_encoder t) (identity_encoder t))%Q)
  /\ jd_skills (_extract_jd_requirements ascii_db jd_with_education) <> []
  /\ incl (jd_skills (_extract_jd_requirements ascii_db jd_with_education))
          (skills (sample_candidate_with_aws "5"))
  /\ (fst (skill_match identity_encoder exact_match_similarity
             (sample_candidate_with_aws "5")
             (_extract_jd_requirements ascii_db jd_with_education)) == 100)%Q.
Proof.
  assert (H2 : jd_skills (_extract_jd_requirements ascii_db jd_with_education)
               <> []) by (vm_compute; discriminate).
  split; [exact exact_match_similarity_self|].
  split; [exact H2|].
  split; [exact sample_required_skills_listed|].
  exact (all_required_skills_listed_scores_100 text identity_encoder
           exact_match_similarity (sample_candidate_with_aws "5")
           (_extract_jd_requirements ascii_db jd_with_education)
           exact_match_similarity_self H2 sample_required_skills_listed).
Defined.

(** ** scoring_logic.py: the minimum experience of a job *)

